(** * Session secrets and secure-note retrieval of the Dashlane CLI

    A shallow embedding of [src/crypto/keychainManager.ts] and
    [src/middleware/getSecureNotes.ts], and the properties of both that the
    specification states.

    Conventions of the embedding.
    - A JavaScript string is a [string].  The lower-casing of
      [Js.toLowerCase] is that of JavaScript on ASCII text, where a character
      is one code unit and only [A-Z] move; the properties that depend on it
      say of which strings they require [Js.isAscii].
    - A Node [Buffer] is a [list byte].
    - An optional argument ([x?: T], [T | null], [T | undefined]) is an
      [option T]; the truthiness tests of the sources are written out.
    - An [async] function is a computation in the monad [M]: it reads and
      writes the [World] (OS keychain, SQLite tables), appends every call it
      makes to an external collaborator to the world's [trace], and either
      returns a value or throws. *)

From Stdlib Require Import Strings.Ascii Strings.String Strings.Byte Lists.List NArith Bool Lia.
From stdpp Require Import base option list gmap strings.

Local Open Scope string_scope.
Local Open Scope list_scope.

(** ** JavaScript values used by the two modules *)

Definition Buffer : Type := list byte.

Module Js.

(** [Boolean(s)]: a string is truthy unless it is empty. *)
Definition truthy (s : string) : bool :=
  match s with
  | EmptyString => false
  | String _ _ => true
  end.

(** Truthiness of a [string | null | undefined]. *)
Definition truthy_opt (s : option string) : bool :=
  match s with
  | Some s => truthy s
  | None => false
  end.

(** A code unit of the ASCII range, and text made of such code units. *)
Definition isAsciiChar (c : ascii) : bool := (N_of_ascii c <? 128)%N.

Fixpoint isAscii (s : string) : bool :=
  match s with
  | EmptyString => true
  | String c s' => isAsciiChar c && isAscii s'
  end.

(** [c.toLowerCase()] on one ASCII code unit ([isAsciiChar]); the case
    mapping of the other code units is not modelled. *)
Definition lowerChar (c : ascii) : ascii :=
  let n := N_of_ascii c in
  if ((65 <=? n) && (n <=? 90))%N then ascii_of_N (n + 32) else c.

(** [s.toLowerCase()], for [s] with [isAscii s]. *)
Fixpoint toLowerCase (s : string) : string :=
  match s with
  | EmptyString => EmptyString
  | String c s' => String (lowerChar c) (toLowerCase s')
  end.

(** [s.startsWith(p)]; the loop of [includes] at one position. *)
Fixpoint startsWith (s p : string) : bool :=
  match p, s with
  | EmptyString, _ => true
  | String _ _, EmptyString => false
  | String a p', String b s' => Ascii.eqb a b && startsWith s' p'
  end.

(** [s.includes(search)]. *)
Fixpoint includes (s search : string) : bool :=
  startsWith s search ||
  match s with
  | EmptyString => false
  | String _ s' => includes s' search
  end.

(** [s[0]]: the first code unit as a one-character string, or [undefined]. *)
Definition charAt0 (s : string) : option string :=
  match s with
  | EmptyString => None
  | String c _ => Some (String c EmptyString)
  end.

(** [s.slice(1)]. *)
Definition slice1 (s : string) : string :=
  match s with
  | EmptyString => EmptyString
  | String _ s' => s'
  end.

(** [Buffer.from(s)] and [buf.toString()] (UTF-8, which is the identity
    on ASCII text). *)
Definition bufferFromString (s : string) : Buffer := list_byte_of_string s.
Definition bufferToString (b : Buffer) : string := string_of_list_byte b.

End Js.

(** ** Node's hexadecimal codec: [buf.toString('hex')], [Buffer.from(s, 'hex')] *)

Module Hex.

Definition digit (n : N) : ascii :=
  if (n <? 10)%N then ascii_of_N (48 + n) else ascii_of_N (87 + n).

(** Value of one hexadecimal digit; both cases are accepted on input. *)
Definition value (c : ascii) : option N :=
  let n := N_of_ascii c in
  if ((48 <=? n) && (n <=? 57))%N then Some (n - 48)%N
  else if ((97 <=? n) && (n <=? 102))%N then Some (n - 87)%N
  else if ((65 <=? n) && (n <=? 70))%N then Some (n - 55)%N
  else None.

Definition byteOfN (n : N) : byte := byte_of_ascii (ascii_of_N n).

(** [buf.toString('hex')]: two lower-case digits per byte. *)
Fixpoint toHex (b : Buffer) : string :=
  match b with
  | [] => EmptyString
  | x :: b' =>
      let n := Byte.to_N x in
      String (digit (n / 16)) (String (digit (n mod 16)) (toHex b'))
  end.

(** [Buffer.from(s, 'hex')]: decodes pairs of digits and stops, keeping
    what was decoded, at the first pair that is not hexadecimal or at a
    lone final character (Node truncates, it does not throw). *)
Fixpoint fromHex (s : string) : Buffer :=
  match s with
  | String a (String b rest) =>
      match value a, value b with
      | Some hi, Some lo => byteOfN (16 * hi + lo) :: fromHex rest
      | _, _ => []
      end
  | _ => []
  end.

(** A lower-case digit, as [toHex] writes them. *)
Definition lowerDigit (c : ascii) : bool :=
  let n := N_of_ascii c in
  ((48 <=? n) && (n <=? 57) || (97 <=? n) && (n <=? 102))%N.

(** An even number of lower-case hexadecimal digits. *)
Fixpoint canonical (s : string) : bool :=
  match s with
  | EmptyString => true
  | String a (String b rest) => lowerDigit a && lowerDigit b && canonical rest
  | String _ EmptyString => false
  end.

End Hex.

(** ** Data model ([src/types.ts], [src/crypto/types.ts]) *)

(** The session bundle that [getSecrets] returns. *)
Module Secrets.
Record t : Type := mk {
  login : string;
  masterPassword : string;
  accessKey : string;
  secretKey : string;
}.
End Secrets.

(** The parsed header of an encrypted payload; [keychainManager.ts] builds
    one by hand to carry the derivation parameters of the local key. *)
Module EncryptedData.
Record KeyDerivation : Type := mkKeyDerivation {
  algo : string;
  saltLength : N;
  tCost : N;
  mCost : N;
  parallelism : N;
}.
Record CipherConfig : Type := mkCipherConfig {
  encryption : string;
  cipherMode : string;
  ivLength : N;
}.
Record CipherData : Type := mkCipherData {
  salt : Buffer;
  iv : Buffer;
  hash : Buffer;
  encryptedPayload : Buffer;
}.
Record t : Type := mk {
  keyDerivation : KeyDerivation;
  cipherConfig : CipherConfig;
  cipherData : CipherData;
}.
End EncryptedData.

(** Modelled from the spec: the declaration of [BackupEditTransaction] is
    not among the sources; section 3 of the specification gives a
    transaction the fields [login], [action], [type] and [payload], of which
    the sources read [type] and query [login] and [action]. *)
Module Transaction.
Record t : Type := mk {
  login : string;
  action : string;
  type : string;
  payload : string;
}.
End Transaction.

(** A decrypted secure note: [root.KWSecureNote.KWDataItem] is the list of
    [{_attributes: {key}, _cdata}] entries. *)
Module SecureNote.
Record Attributes : Type := mkAttributes { key : string }.
Record Entry : Type := mkEntry { _attributes : Attributes; _cdata : string }.
Record Items : Type := mkItems { KWDataItem : list Entry }.
Record Root : Type := mkRoot { KWSecureNote : Items }.
Record t : Type := mk { root : Root }.
End SecureNote.

(** A [VaultNote] is the plain object that [Object.fromEntries] builds. *)
Abbreviation VaultNote := (gmap string string).

(** What a call can throw, by origin. *)
Inductive Exn : Type :=
| Error (message : string)                 (* [throw new Error(message)] in the two sources *)
| TypeError (message : string)             (* raised by the engine on [undefined.f] *)
| DecryptionFailed (reason : string)       (* thrown by [decrypt] *)
| RegistrationFailed (reason : string)     (* thrown by [registerDevice] *)
| TransactionDecryptionFailed (reason : string). (* rejection of [decryptTransaction] *)

Inductive Result (A : Type) : Type :=
| Ok (a : A)
| Throw (e : Exn).
Arguments Ok {A} a.
Arguments Throw {A} e.

(** ** External collaborators

    The functions the two modules import from the rest of the repository
    ([crypto/encrypt], [crypto/decrypt], [crypto/hash], [crypto]) and from
    Node.  Their code is not among the sources: they are parameters, with
    the signatures of section 6 of the specification ([encrypt(key,
    plaintext)], [decrypt(blob, key)], [derive(password, parameters)],
    [digest(bytes)]).  A function that can throw returns [inl reason] when
    it does. *)
Class Platform : Type := {
  (** serialized ciphertext, as [encryptAES] returns it and the [device]
      table stores it *)
  Blob : Type;
  encryptAES : Buffer -> Buffer -> Blob;
  decrypt : Blob -> Buffer -> string + Buffer;
  getDerivateUsingParametersFromEncryptedData : string -> EncryptedData.t -> Buffer;
  sha512 : string -> Buffer;
  (** [buf.toString('base64')] and [Buffer.from(s, 'base64')] *)
  toBase64 : Buffer -> string;
  fromBase64 : string -> Buffer;
  decryptTransaction : Transaction.t -> Secrets.t -> string + SecureNote.t;
}.

(** A row of the [device] table ([DeviceKeysWithLogin]; [DeviceKeys] is the
    same object seen without its [login]). *)
Module DeviceKeys.
Record t `{Platform} : Type := mk {
  login : string;
  accessKey : string;
  secretKeyEncrypted : Blob;
  masterPasswordEncrypted : Blob;
  localKeyEncrypted : Blob;
}.
Arguments mk {_} _ _ _ _ _.
End DeviceKeys.

(** What [registerDevice] resolves to. *)
Module Registration.
Record t : Type := mk { deviceAccessKey : string; deviceSecretKey : string }.
End Registration.

(** The answers of the outside world during one call: what the user types
    at the prompts, what the random source and the registration server
    give back, which note the user picks. *)
Record Env : Type := mkEnv {
  typedLogin : string;
  typedMasterPassword : string;
  (** [crypto.randomBytes(n)]; [None] stands for a falsy result *)
  randomBytes : nat -> option Buffer;
  registerDevice : string -> string + Registration.t;
  askSecureNoteChoice : list VaultNote -> bool -> VaultNote;
}.

(** Every call that leaves the module, in the order it is made. *)
Inductive Event `{Platform} : Type :=
| PromptLogin
| PromptMasterPassword
| KeychainGet (service account : string)
| KeychainSet (service account password : string)
| RandomBytes (size : nat)
| Derive (masterPassword : string) (parameters : EncryptedData.t)
| RegisterDevice (login : string)
| Encrypt (key content : Buffer)
| Decrypt (data : Blob) (key : Buffer)
| DeviceReplace (row : DeviceKeys.t)
| TransactionsSelect (login : string)
| DecryptTransaction (transaction : Transaction.t)
| AskSecureNoteChoice (matchedNotes : list VaultNote) (hasFilters : bool)
| WinstonDebug (line : string)
| ConsoleLog (line : option string).

(** The state outside the process: the OS keychain ([keytar]), the two
    SQLite tables, and the calls made so far. *)
Record World `{Platform} : Type := mkWorld {
  keychain : gmap (string * string) string;
  device : list DeviceKeys.t;
  transactions : list Transaction.t;
  trace : list Event;
}.
Arguments mkWorld {_} _ _ _ _.

(** ** The monad of asynchronous calls *)

Definition M `{Platform} (A : Type) : Type := World -> Result A * World.

Section Monad.
Context `{Platform}.

Definition ret {A} (a : A) : M A := fun w => (Ok a, w).

Definition throw {A} (e : Exn) : M A := fun w => (Throw e, w).

Definition bind {A B} (c : M A) (k : A -> M B) : M B :=
  fun w =>
    match c w with
    | (Ok a, w') => k a w'
    | (Throw e, w') => (Throw e, w')
    end.

(** Record a call in the trace. *)
Definition emit (ev : Event) : M unit :=
  fun w => (Ok tt, mkWorld (keychain w) (device w) (transactions w) (trace w ++ [ev])).

(** Resolve or reject from the outcome of an external function. *)
Definition settle {A} (failed : string -> Exn) (r : string + A) : M A :=
  match r with
  | inr a => ret a
  | inl reason => throw (failed reason)
  end.

End Monad.

Notation "x <- c ;; k" := (bind c (fun x => k))
  (at level 100, c at next level, right associativity,
   format "'[v' x  <-  c  ;;  '/' k ']'").
Notation "c ;;; k" := (bind c (fun _ => k))
  (at level 100, right associativity,
   format "'[v' c  ;;;  '/' k ']'").

(** ** Calls to the collaborators, as computations *)

Section Calls.
Context `{Platform}.

(** [keytar.setPassword(service, account, password)]; the keychain is
    taken to answer: it stores what it is given and gives back what it
    stores. *)
Definition keytar_setPassword (service account password : string) : M unit :=
  emit (KeychainSet service account password) ;;;
  fun w =>
    (Ok tt, mkWorld (<[(service, account) := password]> (keychain w))
                    (device w) (transactions w) (trace w)).

(** [keytar.getPassword(service, account)]; [None] is [null]. *)
Definition keytar_getPassword (service account : string) : M (option string) :=
  emit (KeychainGet service account) ;;;
  fun w => (Ok (keychain w !! (service, account)), w).

(** The [inquirer] prompt for the login. *)
Definition promptLogin (env : Env) : M string :=
  emit PromptLogin ;;; ret (typedLogin env).

(** [promptMasterPassword()] *)
Definition promptMasterPassword (env : Env) : M string :=
  emit PromptMasterPassword ;;; ret (typedMasterPassword env).

Definition do_randomBytes (env : Env) (size : nat) : M (option Buffer) :=
  emit (RandomBytes size) ;;; ret (randomBytes env size).

Definition do_registerDevice (env : Env) (login : string) : M Registration.t :=
  emit (RegisterDevice login) ;;; settle RegistrationFailed (registerDevice env login).

Definition do_derive (masterPassword : string) (parameters : EncryptedData.t) : M Buffer :=
  emit (Derive masterPassword parameters) ;;;
  ret (getDerivateUsingParametersFromEncryptedData masterPassword parameters).

(** [encryptAES(key, content)]; the encryption is taken to succeed. *)
Definition do_encryptAES (key content : Buffer) : M Blob :=
  emit (Encrypt key content) ;;; ret (encryptAES key content).

Definition do_decrypt (data : Blob) (key : Buffer) : M Buffer :=
  emit (Decrypt data key) ;;; settle DecryptionFailed (decrypt data key).

(** Modelled from the spec: the schema of the [device] table is not in the
    sources; section 6 of the specification gives [login] as its primary
    key, so that SQLite's [REPLACE INTO device] first deletes the rows
    whose [login] equals the new row's and then inserts the new row. *)
Definition replaceInto (row : DeviceKeys.t) (table : list DeviceKeys.t) : list DeviceKeys.t :=
  List.filter (fun r => negb (String.eqb (DeviceKeys.login r) (DeviceKeys.login row))) table
  ++ [row].

(** [db.prepare('REPLACE INTO device VALUES (?, ?, ?, ?, ?)').bind(...).run()];
    the write is taken to succeed. *)
Definition db_replaceDevice (row : DeviceKeys.t) : M unit :=
  emit (DeviceReplace row) ;;;
  fun w =>
    (Ok tt, mkWorld (keychain w) (replaceInto row (device w)) (transactions w) (trace w)).

(** [db.prepare(`SELECT * FROM transactions WHERE login = ? AND action =
    'BACKUP_EDIT'`).bind(login).all()] *)
Definition db_selectTransactions (login : string) : M (list Transaction.t) :=
  emit (TransactionsSelect login) ;;;
  fun w =>
    (Ok (List.filter
           (fun t => String.eqb (Transaction.login t) login
                     && String.eqb (Transaction.action t) "BACKUP_EDIT")
           (transactions w)), w).

End Calls.

(** ** [src/crypto/keychainManager.ts] *)

Section KeychainManager.
Context `{Platform}.

Definition SERVICE : string := "dashlane-cli".

Definition setLocalKey (env : Env) (login : string) (localKey : option Buffer) : M Buffer :=
  localKey <- match localKey with
              | Some localKey => ret localKey
              | None =>
                  localKey <- do_randomBytes env 32 ;;
                  match localKey with
                  | Some localKey => ret localKey
                  | None => throw (Error "Unable to generate AES local key")
                  end
              end ;;
  keytar_setPassword SERVICE login (toBase64 localKey) ;;;
  ret localKey.

Definition getLocalKey (login : string) : M (option Buffer) :=
  localKeyEncoded <- keytar_getPassword SERVICE login ;;
  if Js.truthy_opt localKeyEncoded
  then ret (Some (fromBase64 (default "" localKeyEncoded)))
  else ret None.

(** Fake transaction used to set derivation parameters to encrypt the
    local key in the DB using the master password. *)
Definition getDerivationParametersForLocalKey (login : string) : EncryptedData.t :=
  EncryptedData.mk
    (EncryptedData.mkKeyDerivation "argon2d" 16 3 32768 2)
    (EncryptedData.mkCipherConfig "aes256" "cbchmac" 0)
    (EncryptedData.mkCipherData (take 16 (sha512 login)) [] [] []).

(** [if (!masterPassword) masterPassword = await promptMasterPassword()] *)
Definition masterPasswordOrPrompt (env : Env) (masterPassword : option string) : M string :=
  if Js.truthy_opt masterPassword
  then ret (default "" masterPassword)
  else promptMasterPassword env.

Definition getSecretsWithoutDB (env : Env) (login : string)
    (masterPassword : option string) (localKey : option Buffer) : M Secrets.t :=
  masterPassword <- masterPasswordOrPrompt env masterPassword ;;
  derivate <- do_derive masterPassword (getDerivationParametersForLocalKey login) ;;
  registration <- do_registerDevice env login ;;
  let deviceAccessKey := Registration.deviceAccessKey registration in
  let deviceSecretKey := Registration.deviceSecretKey registration in
  localKey <- match localKey with
              | Some localKey => ret localKey
              | None => setLocalKey env login None
              end ;;
  deviceSecretKeyEncrypted <- do_encryptAES localKey (Hex.fromHex deviceSecretKey) ;;
  masterPasswordEncrypted <- do_encryptAES localKey (Js.bufferFromString masterPassword) ;;
  localKeyEncrypted <- do_encryptAES derivate localKey ;;
  db_replaceDevice
    (DeviceKeys.mk login deviceAccessKey deviceSecretKeyEncrypted
                   masterPasswordEncrypted localKeyEncrypted) ;;;
  ret (Secrets.mk login masterPassword deviceAccessKey deviceSecretKey).

Definition getSecretsWithoutKeychain (env : Env) (login : string)
    (deviceKeys : DeviceKeys.t) (masterPassword : option string) : M Secrets.t :=
  masterPassword <- masterPasswordOrPrompt env masterPassword ;;
  derivate <- do_derive masterPassword (getDerivationParametersForLocalKey login) ;;
  localKey <- do_decrypt (DeviceKeys.localKeyEncrypted deviceKeys) derivate ;;
  secretKeyBytes <- do_decrypt (DeviceKeys.secretKeyEncrypted deviceKeys) localKey ;;
  let secretKey := Hex.toHex secretKeyBytes in
  setLocalKey env login (Some localKey) ;;;
  ret (Secrets.mk login masterPassword (DeviceKeys.accessKey deviceKeys) secretKey).

Definition getSecrets (env : Env) (deviceKeys : option DeviceKeys.t)
    (masterPassword : option string) : M Secrets.t :=
  login <- match deviceKeys with
           | Some deviceKeys => ret (DeviceKeys.login deviceKeys)
           | None => promptLogin env
           end ;;
  localKey <- getLocalKey login ;;
  match deviceKeys with
  | None =>
      (* If there are no secrets in the DB *)
      getSecretsWithoutDB env login masterPassword localKey
  | Some deviceKeys =>
      match localKey with
      | None =>
          (* If the keychain is unreachable, or empty, the local key is
             retrieved from the master password from the DB *)
          getSecretsWithoutKeychain env login deviceKeys masterPassword
      | Some localKey =>
          (* Otherwise, the local key can be used to decrypt the device
             secret key and the master password in the DB *)
          masterPassword <-
            (if Js.truthy_opt masterPassword
             then ret (default "" masterPassword)
             else
               plain <- do_decrypt (DeviceKeys.masterPasswordEncrypted deviceKeys) localKey ;;
               ret (Js.bufferToString plain)) ;;
          secretKeyBytes <- do_decrypt (DeviceKeys.secretKeyEncrypted deviceKeys) localKey ;;
          let secretKey := Hex.toHex secretKeyBytes in
          ret (Secrets.mk login masterPassword (DeviceKeys.accessKey deviceKeys) secretKey)
      end
  end.

End KeychainManager.

(** ** [src/middleware/getSecureNotes.ts] *)

Section GetSecureNotes.
Context `{Platform}.

(** The parameter object of [getNote]; its [db] handle is the [World]. *)
Record GetSecureNote : Type := mkGetSecureNote {
  titleFilter : option string;
  secrets : Secrets.t;
}.

(** [l.map(f)] where [f] makes calls: left to right. *)
Fixpoint traverse {A B} (f : A -> M B) (l : list A) : M (list B) :=
  match l with
  | [] => ret []
  | a :: l' =>
      b <- f a ;;
      bs <- traverse f l' ;;
      ret (b :: bs)
  end.

(** [decryptTransaction(transaction, secrets)]: the call is made and its
    promise, settled or rejected, is handed back. *)
Definition do_decryptTransaction (secrets : Secrets.t) (transaction : Transaction.t)
    : M (string + SecureNote.t) :=
  emit (DecryptTransaction transaction) ;;;
  ret (decryptTransaction transaction secrets).

(** [await Promise.all(promises)]: the values of all of them, or the
    rejection of one; the promises are taken to settle in list order, so
    the rejection is the first of the list. *)
Fixpoint promiseAll {A} (failed : string -> Exn) (promises : list (string + A)) : M (list A) :=
  match promises with
  | [] => ret []
  | inl reason :: _ => throw (failed reason)
  | inr a :: rest =>
      values <- promiseAll failed rest ;;
      ret (a :: values)
  end.

Definition decryptSecureNotesTransactions (transactions : list Transaction.t)
    (secrets : Secrets.t) : M (option (list SecureNote.t)) :=
  let secureNotesTransactions :=
    List.filter (fun transaction => String.eqb (Transaction.type transaction) "SECURENOTE")
                transactions in
  promises <- traverse (do_decryptTransaction secrets) secureNotesTransactions ;;
  secureNotesDecrypted <- promiseAll TransactionDecryptionFailed promises ;;
  ret (Some secureNotesDecrypted).

(** [Object.fromEntries(entries)]: a later entry overwrites an earlier one
    of the same name. *)
Definition fromEntries (entries : list (string * string)) : VaultNote :=
  fold_left (fun object entry => <[entry.1 := entry.2]> object) entries ∅.

(** [entry => [key[0].toLowerCase() + key.slice(1), entry._cdata]];
    [key[0]] of an empty key is [undefined]. *)
Definition beautifyEntry (entry : SecureNote.Entry) : M (string * string) :=
  let key := SecureNote.key (SecureNote._attributes entry) in
  match Js.charAt0 key with
  | None => throw (TypeError "Cannot read properties of undefined (reading 'toLowerCase')")
  | Some first => ret (Js.toLowerCase first +:+ Js.slice1 key, SecureNote._cdata entry)
  end.

(** [item => Object.fromEntries(item.root.KWSecureNote.KWDataItem.map(...))] *)
Definition beautify (item : SecureNote.t) : M VaultNote :=
  entries <- traverse beautifyEntry
               (SecureNote.KWDataItem (SecureNote.KWSecureNote (SecureNote.root item))) ;;
  ret (fromEntries entries).

(** [item => item.title.toLowerCase().includes(canonicalTitleFilter)] *)
Definition titleMatches (canonicalTitleFilter : string) (item : VaultNote) : M bool :=
  match item !! "title" with
  | None => throw (TypeError "Cannot read properties of undefined (reading 'toLowerCase')")
  | Some title => ret (Js.includes (Js.toLowerCase title) canonicalTitleFilter)
  end.

(** [l.filter(p)] where [p] can throw. *)
Fixpoint filterM {A} (p : A -> M bool) (l : list A) : M (list A) :=
  match l with
  | [] => ret []
  | a :: l' =>
      keep <- p a ;;
      kept <- filterM p l' ;;
      ret (if keep then a :: kept else kept)
  end.

(** [String(note)], the conversion that [sort] applies to a note.  A note
    with no field named [toString] of its own inherits
    [Object.prototype.toString].  In a note that has such a field, the field
    is a string and no method, [valueOf] (its own, a string as well, or the
    inherited one, which gives back the object) yields no primitive value
    either, and the conversion throws. *)
Definition objectToString (note : VaultNote) : M string :=
  match note !! "toString" with
  | None => ret "[object Object]"
  | Some _ => throw (TypeError "Cannot convert object to primitive value")
  end.

(** A note with the string it is ordered by. *)
Definition sortKey (note : VaultNote) : M (string * VaultNote) :=
  converted <- objectToString note ;;
  ret (converted, note).

Fixpoint sortInsert (note : string * VaultNote) (sorted : list (string * VaultNote))
    : list (string * VaultNote) :=
  match sorted with
  | [] => [note]
  | other :: rest =>
      if String.ltb other.1 note.1
      then other :: sortInsert note rest
      else note :: other :: rest
  end.

(** [notes.sort()]: an array of fewer than two elements is returned as it
    is, nothing being compared.  Otherwise, with no comparator, the elements
    are ordered by their string conversions, elements that compare equal
    keeping their order; the comparisons reach every element, so that a
    conversion that throws makes the sort throw. *)
Definition sort (notes : list VaultNote) : M (list VaultNote) :=
  match notes with
  | [] | [_] => ret notes
  | _ =>
      converted <- traverse sortKey notes ;;
      ret (map snd (fold_right sortInsert [] converted))
  end.

(** [x?.f(...)] *)
Definition optionalCall {A B} (x : option A) (f : A -> M B) : M (option B) :=
  match x with
  | None => ret None
  | Some a => b <- f a ;; ret (Some b)
  end.

(** [getNote], lines 29-49: read the transactions, decrypt the secure
    notes and reshape each into a [VaultNote]. *)
Definition getBeautifiedNotes (params : GetSecureNote) : M (option (list VaultNote)) :=
  let secrets := secrets params in
  let titleFilter := titleFilter params in
  emit (WinstonDebug ("Retrieving: " +:+
          (if Js.truthy_opt titleFilter then default "" titleFilter else ""))) ;;;
  transactions <- db_selectTransactions (Secrets.login secrets) ;;
  notesDecrypted <- decryptSecureNotesTransactions transactions secrets ;;
  (* transform entries [{_attributes: {key: xx}, _cdata: ww}] into an
     easier-to-use object *)
  optionalCall notesDecrypted (traverse beautify).

(** [getNote], lines 51-56: the title filter and [matchedNotes?.sort()]. *)
Definition matchNotes (titleFilter : option string)
    (beautifiedNotes : option (list VaultNote)) : M (option (list VaultNote)) :=
  matchedNotes <-
    (if Js.truthy_opt titleFilter
     then
       let canonicalTitleFilter := Js.toLowerCase (default "" titleFilter) in
       optionalCall beautifiedNotes (filterM (titleMatches canonicalTitleFilter))
     else ret beautifiedNotes) ;;
  optionalCall matchedNotes sort.

(** [getNote], lines 58-66: the choice among the candidates. *)
Definition selectNote (env : Env) (titleFilter : option string)
    (matchedNotes : option (list VaultNote)) : M VaultNote :=
  match matchedNotes with
  | None | Some [] => throw (Error "No note found")
  | Some [note] => ret note
  | Some matchedNotes =>
      let hasFilters := Js.truthy_opt titleFilter in
      emit (AskSecureNoteChoice matchedNotes hasFilters) ;;;
      ret (askSecureNoteChoice env matchedNotes hasFilters)
  end.

Definition getNote (env : Env) (params : GetSecureNote) : M unit :=
  beautifiedNotes <- getBeautifiedNotes params ;;
  matchedNotes <- matchNotes (titleFilter params) beautifiedNotes ;;
  selectedNote <- selectNote env (titleFilter params) matchedNotes ;;
  emit (ConsoleLog (selectedNote !! "content")).

End GetSecureNotes.

(** ** Vocabulary of the specification *)

Section Vocabulary.
Context `{Platform}.

(** The round-trip law of the cipher (section 8 of the specification). *)
Definition RoundTrip : Prop :=
  forall key content, decrypt (encryptAES key content) key = inr content.

(** What is used of the base64 codec: decoding undoes encoding, and the
    empty buffer is written as the empty string. *)
Definition Base64Codec : Prop :=
  (forall b, fromBase64 (toBase64 b) = b) /\ toBase64 [] = EmptyString.

(** The world after more calls were recorded. *)
Definition logged (w : World) (evs : list Event) : World :=
  mkWorld (keychain w) (device w) (transactions w) (trace w ++ evs).

(** The password a call works with: the one supplied, or the one typed. *)
Definition effectivePassword (env : Env) (masterPassword : option string) : string :=
  if Js.truthy_opt masterPassword then default "" masterPassword else typedMasterPassword env.

(** The device row that wraps a bundle under a local key: the secret key
    and the master password under the local key, the local key under the
    derivate of the master password. *)
Definition sealedRow (s : Secrets.t) (localKey : Buffer) : DeviceKeys.t :=
  DeviceKeys.mk (Secrets.login s) (Secrets.accessKey s)
    (encryptAES localKey (Hex.fromHex (Secrets.secretKey s)))
    (encryptAES localKey (Js.bufferFromString (Secrets.masterPassword s)))
    (encryptAES
       (getDerivateUsingParametersFromEncryptedData (Secrets.masterPassword s)
          (getDerivationParametersForLocalKey (Secrets.login s)))
       localKey).

(** The rows of the [device] table for a login. *)
Definition rowsFor (login : string) (table : list DeviceKeys.t) : list DeviceKeys.t :=
  List.filter (fun r => String.eqb (DeviceKeys.login r) login) table.

Definition isDeviceReplace (ev : Event) : bool :=
  match ev with DeviceReplace _ => true | _ => false end.

Definition isRegisterDevice (ev : Event) : bool :=
  match ev with RegisterDevice _ => true | _ => false end.

(** Calls to the user: the disambiguation prompt, and the output. *)
Definition isAskSecureNoteChoice (ev : Event) : bool :=
  match ev with AskSecureNoteChoice _ _ => true | _ => false end.

Definition isConsoleLog (ev : Event) : bool :=
  match ev with ConsoleLog _ => true | _ => false end.

(** One call of [getSecrets], with the answers of the outside world. *)
Record Call : Type := mkCall {
  callEnv : Env;
  callDeviceKeys : option DeviceKeys.t;
  callMasterPassword : option string;
}.

(** A sequence of calls, each in the world the previous one left, whether
    it returned or threw. *)
Fixpoint getSecretsCalls (calls : list Call) (w : World) : World :=
  match calls with
  | [] => w
  | c :: calls' =>
      getSecretsCalls calls'
        (getSecrets (callEnv c) (callDeviceKeys c) (callMasterPassword c) w).2
  end.

(** The specification's attribute-key transform: the key with only its
    first character lower-cased. *)
Definition fieldName (key : string) : string :=
  match key with
  | EmptyString => EmptyString
  | String c rest => String (Js.lowerChar c) rest
  end.

(** The specification's filter: the title contains the filter as a
    case-insensitive substring. *)
Definition titleContains (filter : string) (note : VaultNote) : Prop :=
  exists title before after,
    note !! "title" = Some title
    /\ Js.toLowerCase title = before +:+ Js.toLowerCase filter +:+ after.

(** The secure-note transactions that [getNote] decrypts for a bundle. *)
Definition secureNoteBatch (s : Secrets.t) (w : World) : list Transaction.t :=
  List.filter (fun t => String.eqb (Transaction.type t) "SECURENOTE")
    (List.filter
       (fun t => String.eqb (Transaction.login t) (Secrets.login s)
                 && String.eqb (Transaction.action t) "BACKUP_EDIT")
       (transactions w)).

End Vocabulary.

(** ** An executable platform

    A reference implementation of the [Platform] interface: the base64
    codec of RFC 4648 and a transparent cipher that keeps the key next to
    the content and refuses any other key.  The examples run on it. *)

Module Base64.

(** The character of a 6-bit value. *)
Definition char (n : N) : ascii :=
  if (n <? 26)%N then ascii_of_N (65 + n)
  else if (n <? 52)%N then ascii_of_N (71 + n)
  else if (n <? 62)%N then ascii_of_N (n - 4)
  else if (n =? 62)%N then "+"%char
  else "/"%char.

(** The 6-bit value of a character of the alphabet. *)
Definition value (c : ascii) : option N :=
  let n := N_of_ascii c in
  if ((65 <=? n) && (n <=? 90))%N then Some (n - 65)%N
  else if ((97 <=? n) && (n <=? 122))%N then Some (n - 71)%N
  else if ((48 <=? n) && (n <=? 57))%N then Some (n + 4)%N
  else if (n =? 43)%N then Some 62%N
  else if (n =? 47)%N then Some 63%N
  else None.

Definition byteOfN (n : N) : byte := byte_of_ascii (ascii_of_N n).

(** Three bytes give four characters; one or two final bytes give two or
    three characters and [=] padding. *)
Fixpoint encode (b : Buffer) : string :=
  match b with
  | [] => EmptyString
  | [x] =>
      let n := (Byte.to_N x * 65536)%N in
      String (char (n / 262144)) (String (char (n / 4096 mod 64)) "==")
  | [x; y] =>
      let n := (Byte.to_N x * 65536 + Byte.to_N y * 256)%N in
      String (char (n / 262144)) (String (char (n / 4096 mod 64))
        (String (char (n / 64 mod 64)) "="))
  | x :: y :: z :: rest =>
      let n := (Byte.to_N x * 65536 + Byte.to_N y * 256 + Byte.to_N z)%N in
      String (char (n / 262144)) (String (char (n / 4096 mod 64))
        (String (char (n / 64 mod 64)) (String (char (n mod 64)) (encode rest))))
  end.

(** Decoding reads groups of four characters and stops at padding or at
    a character outside the alphabet. *)
Fixpoint decode (s : string) : Buffer :=
  match s with
  | String a (String b (String c (String d rest))) =>
      match value a, value b with
      | Some va, Some vb =>
          match value c with
          | None => [byteOfN ((va * 64 + vb) / 16)]
          | Some vc =>
              match value d with
              | None =>
                  let n := ((va * 64 + vb) * 64 + vc)%N in
                  [byteOfN (n / 1024); byteOfN (n / 4 mod 256)]
              | Some vd =>
                  let n := (((va * 64 + vb) * 64 + vc) * 64 + vd)%N in
                  byteOfN (n / 65536) :: byteOfN (n / 256 mod 256)
                    :: byteOfN (n mod 256) :: decode rest
              end
          end
      | _, _ => []
      end
  | _ => []
  end.

End Base64.

Module Double.

Fixpoint bufferEqb (a b : Buffer) : bool :=
  match a, b with
  | [], [] => true
  | x :: a', y :: b' => Byte.eqb x y && bufferEqb a' b'
  | _, _ => false
  end.

(** A note whose title is the payload; an empty payload does not decrypt. *)
Definition noteOfPayload (payload : string) : string + SecureNote.t :=
  if Js.truthy payload
  then inr (SecureNote.mk (SecureNote.mkRoot (SecureNote.mkItems
         [SecureNote.mkEntry (SecureNote.mkAttributes "Title") payload;
          SecureNote.mkEntry (SecureNote.mkAttributes "Content") ("content of " +:+ payload)])))
  else inl "corrupted payload".

#[export] Instance platform : Platform := {|
  Blob := Buffer * Buffer;
  encryptAES key content := (key, content);
  decrypt data key :=
    if bufferEqb data.1 key then inr data.2 else inl "wrong key";
  getDerivateUsingParametersFromEncryptedData masterPassword parameters :=
    Js.bufferFromString masterPassword
      ++ EncryptedData.salt (EncryptedData.cipherData parameters);
  sha512 text := Js.bufferFromString text ++ repeat "000"%byte 64;
  toBase64 := Base64.encode;
  fromBase64 := Base64.decode;
  decryptTransaction transaction secrets := noteOfPayload (Transaction.payload transaction);
|}.

(** Thirty-two bytes, as [crypto.randomBytes(32)] gives. *)
Definition key32 : Buffer :=
  map (fun n => Base64.byteOfN (N.of_nat n * 7 + 3)) (seq 0 32).

Definition env : Env := {|
  typedLogin := "alice@example.com";
  typedMasterPassword := "correct horse";
  randomBytes size := Some (take size key32);
  registerDevice login :=
    inr (Registration.mk "a1b2c3" "00ff10aa");
  askSecureNoteChoice matchedNotes hasFilters := default ∅ (last matchedNotes);
|}.

Definition emptyWorld : World := mkWorld ∅ [] [] [].

(** A random source that gives sixteen bytes where thirty-two are asked. *)
Definition key16 : Buffer := take 16 key32.

Definition shortEnv : Env := {|
  typedLogin := typedLogin env;
  typedMasterPassword := typedMasterPassword env;
  randomBytes size := Some key16;
  registerDevice := registerDevice env;
  askSecureNoteChoice := askSecureNoteChoice env;
|}.

(** The bundle of the first run of [env] with the password [hunter2]. *)
Definition secrets : Secrets.t :=
  Secrets.mk "alice@example.com" "hunter2" "a1b2c3" "00ff10aa".

(** A world where the first run has taken place and the keychain was
    emptied since. *)
Definition recoveryWorld : World := mkWorld ∅ [sealedRow secrets key32] [] [].

(** A world where the keychain holds the local key of the stored row. *)
Definition cachedWorld : World :=
  mkWorld {[ (SERVICE, "alice@example.com") := Base64.encode key32 ]}
          [sealedRow secrets key32] [] [].

Definition secureNote (payload : string) : Transaction.t :=
  Transaction.mk "alice@example.com" "BACKUP_EDIT" "SECURENOTE" payload.

(** Two secure notes and a credential. *)
Definition notesWorld : World :=
  mkWorld ∅ []
    [secureNote "My Wifi Password";
     Transaction.mk "alice@example.com" "BACKUP_EDIT" "AUTHENTIFIANT" "";
     secureNote "Bank PIN"] [].

(** The same with a secure note that does not decrypt. *)
Definition corruptedWorld : World :=
  mkWorld ∅ [] [secureNote "My Wifi Password"; secureNote ""; secureNote "Bank PIN"] [].

Definition wifiNote : VaultNote :=
  {[ "title" := "My Wifi Password"; "content" := "content of My Wifi Password" ]}.

Definition bankNote : VaultNote :=
  {[ "title" := "Bank PIN"; "content" := "content of Bank PIN" ]}.

Definition otpItem : SecureNote.t :=
  SecureNote.mk (SecureNote.mkRoot (SecureNote.mkItems
    [SecureNote.mkEntry (SecureNote.mkAttributes "Title") "Bank";
     SecureNote.mkEntry (SecureNote.mkAttributes "OtpSecret") "JBSWY3DP";
     SecureNote.mkEntry (SecureNote.mkAttributes "xCustom") "kept"])).

End Double.

(** ** Vocabulary for the behaviour of the code *)

Section CodeVocabulary.
Context `{Platform}.

(** The tamper law of the cipher (section 8 of the specification): a key
    other than the one that encrypted does not decrypt. *)
Definition WrongKey : Prop :=
  forall key other content,
    other <> key -> exists reason, decrypt (encryptAES key content) other = inl reason.

(** The login a call of [getSecrets] works for: that of the device row, or
    the one typed at the prompt. *)
Definition loginOf (env : Env) (deviceKeys : option DeviceKeys.t) : string :=
  match deviceKeys with
  | Some deviceKeys => DeviceKeys.login deviceKeys
  | None => typedLogin env
  end.

Definition isPromptLogin (ev : Event) : bool :=
  match ev with PromptLogin => true | _ => false end.

Definition isPromptMasterPassword (ev : Event) : bool :=
  match ev with PromptMasterPassword => true | _ => false end.

Definition isDerive (ev : Event) : bool :=
  match ev with Derive _ _ => true | _ => false end.

(** The calls that only a first run makes: the random source, the
    registration, the encryptions and the write to the [device] table. *)
Definition isSetupCall (ev : Event) : bool :=
  match ev with
  | RandomBytes _ | RegisterDevice _ | Encrypt _ _ | DeviceReplace _ => true
  | _ => false
  end.

(** The calls that generate or store a local key. *)
Definition isKeyStoreCall (ev : Event) : bool :=
  match ev with
  | RandomBytes _ | KeychainSet _ _ _ => true
  | _ => false
  end.

Definition isDecryptTransaction (ev : Event) : bool :=
  match ev with DecryptTransaction _ => true | _ => false end.

(** The errors of the calls that [getSecrets] makes before it writes: a
    decryption, the registration, and the generation of the local key. *)
Definition isReadFailure (e : Exn) : bool :=
  match e with
  | DecryptionFailed _ | RegistrationFailed _ => true
  | Error message => String.eqb message "Unable to generate AES local key"
  | _ => false
  end.

(** A note as [Object.prototype] leaves it: no field named [toString] of
    its own. *)
Definition isPlain (note : VaultNote) : bool :=
  match note !! "toString" with
  | None => true
  | Some _ => false
  end.

(** The object a decrypted note is reshaped into, as a function. *)
Definition vaultNoteOf (item : SecureNote.t) : VaultNote :=
  fromEntries
    (map (fun entry => (fieldName (SecureNote.key (SecureNote._attributes entry)),
                        SecureNote._cdata entry))
         (SecureNote.KWDataItem (SecureNote.KWSecureNote (SecureNote.root item)))).

(** Whether a note passes the title filter, as a function. *)
Definition titleKeeps (filter : string) (note : VaultNote) : bool :=
  match note !! "title" with
  | Some title => Js.includes (Js.toLowerCase title) (Js.toLowerCase filter)
  | None => false
  end.

(** The notes that pass the title filter, when a non-empty one is given,
    and all of them otherwise. *)
Definition matching (titleFilter : option string) (notes : list VaultNote)
    : list VaultNote :=
  if Js.truthy_opt titleFilter
  then List.filter (titleKeeps (default "" titleFilter)) notes
  else notes.

(** The candidates among decrypted notes: all of them, or with a non-empty
    filter those that pass it. *)
Definition candidatesOf (titleFilter : option string) (items : list SecureNote.t)
    : list VaultNote :=
  if Js.truthy_opt titleFilter
  then List.filter (titleKeeps (default "" titleFilter)) (map vaultNoteOf items)
  else map vaultNoteOf items.

(** The calls with which [getNote] starts: the debug line, the query and
    the decryption of every secure note of the login. *)
Definition retrieval (params : GetSecureNote) (w : World) : list Event :=
  WinstonDebug ("Retrieving: " +:+
     (if Js.truthy_opt (titleFilter params) then default "" (titleFilter params) else ""))
  :: TransactionsSelect (Secrets.login (secrets params))
  :: map DecryptTransaction (secureNoteBatch (secrets params) w).

End CodeVocabulary.

(** ** More worlds for the executable platform *)

Module Scenario.

#[local] Existing Instance Double.platform.

(** The registration server cannot be reached. *)
Definition offlineEnv : Env := {|
  typedLogin := typedLogin Double.env;
  typedMasterPassword := typedMasterPassword Double.env;
  randomBytes := randomBytes Double.env;
  registerDevice login := inl "network unreachable";
  askSecureNoteChoice := askSecureNoteChoice Double.env;
|}.

(** The keychain holds another key than the one the row was sealed under. *)
Definition staleWorld : World :=
  mkWorld {[ (SERVICE, "alice@example.com") := Base64.encode Double.key16 ]}
          [sealedRow Double.secrets Double.key32] [] [].

(** A world with a row and a keychain entry of another login. *)
Definition sharedWorld : World :=
  mkWorld {[ (SERVICE, "bob@example.com") := Base64.encode Double.key16 ]}
          [sealedRow (Secrets.mk "bob@example.com" "letmein" "d4e5f6" "0badcafe") Double.key16]
          [] [].

Definition wifiItem : SecureNote.t :=
  SecureNote.mk (SecureNote.mkRoot (SecureNote.mkItems
    [SecureNote.mkEntry (SecureNote.mkAttributes "Title") "My Wifi Password";
     SecureNote.mkEntry (SecureNote.mkAttributes "Content") "content of My Wifi Password"])).

Definition bankItem : SecureNote.t :=
  SecureNote.mk (SecureNote.mkRoot (SecureNote.mkItems
    [SecureNote.mkEntry (SecureNote.mkAttributes "Title") "Bank PIN";
     SecureNote.mkEntry (SecureNote.mkAttributes "Content") "content of Bank PIN"])).

(** A note whose second attribute has an empty key. *)
Definition brokenItem : SecureNote.t :=
  SecureNote.mk (SecureNote.mkRoot (SecureNote.mkItems
    [SecureNote.mkEntry (SecureNote.mkAttributes "Title") "Bank";
     SecureNote.mkEntry (SecureNote.mkAttributes "") "lost"])).

(** A note with no title. *)
Definition untitledNote : VaultNote := {[ "content" := "no title here" ]}.

(** A registration server that issues the secret key in upper-case
    hexadecimal digits. *)
Definition upperCaseEnv : Env := {|
  typedLogin := typedLogin Double.env;
  typedMasterPassword := typedMasterPassword Double.env;
  randomBytes := randomBytes Double.env;
  registerDevice login := inr (Registration.mk "a1b2c3" "00FFAB");
  askSecureNoteChoice := askSecureNoteChoice Double.env;
|}.

(** A note one of whose attributes is named [ToString]. *)
Definition shadowingItem : SecureNote.t :=
  SecureNote.mk (SecureNote.mkRoot (SecureNote.mkItems
    [SecureNote.mkEntry (SecureNote.mkAttributes "Title") "Recipes";
     SecureNote.mkEntry (SecureNote.mkAttributes "ToString") "shadowed";
     SecureNote.mkEntry (SecureNote.mkAttributes "Content") "content of Recipes"])).

Definition shadowingNote : VaultNote :=
  {[ "title" := "Recipes"; "toString" := "shadowed"; "content" := "content of Recipes" ]}.

End Scenario.

(** ** Tactics *)

(** Linear arithmetic with division and remainder by constants. *)
Ltac divlia := zify; Z.to_euclidean_division_equations; lia.

(** Unfold the calls of [keychainManager.ts] down to the world they act on. *)
Ltac unfold_keychainManager :=
  unfold getSecrets, getSecretsWithoutDB, getSecretsWithoutKeychain, setLocalKey,
    getLocalKey, masterPasswordOrPrompt, keytar_getPassword, keytar_setPassword,
    promptLogin, promptMasterPassword, do_randomBytes, do_registerDevice, do_derive,
    do_encryptAES, do_decrypt, db_replaceDevice, bind, emit, ret, settle, throw.

(** Split on the innermost test that blocks evaluation. *)
Ltac branch :=
  match goal with
  | |- context [match ?x with _ => _ end] =>
      lazymatch x with
      | context [match _ with _ => _ end] => fail
      | _ => destruct x eqn:?
      end
  end; cbn.

(** * Properties *)

(** ** Bounded checks by evaluation *)

Lemma below_forallb (k : nat) (P : N -> bool) :
  forallb P (map N.of_nat (seq 0 k)) = true ->
  forall n, (n < N.of_nat k)%N -> P n = true.
Proof.
  intros Hall n Hn.
  rewrite forallb_forall in Hall. apply Hall.
  rewrite <- (N2Nat.id n). apply in_map. apply in_seq. lia.
Qed.

Lemma byte_to_N_below (x : byte) : (Byte.to_N x < 256)%N.
Proof. destruct x; reflexivity. Qed.

Lemma N_of_ascii_below (c : ascii) : (N_of_ascii c < 256)%N.
Proof. destruct c as [[] [] [] [] [] [] [] []]; reflexivity. Qed.

(** A property of characters that holds by evaluation on the 256 of them
    holds of all. *)
Lemma ascii_forallb (P : ascii -> bool) :
  forallb (fun n => P (ascii_of_N n)) (map N.of_nat (seq 0 256)) = true ->
  forall c, P c = true.
Proof.
  intros Hall c. rewrite <- (ascii_N_embedding c).
  apply (below_forallb 256 (fun n => P (ascii_of_N n)) Hall).
  apply N_of_ascii_below.
Qed.

Lemma byte_forallb (P : byte -> bool) :
  forallb (fun n => P (Hex.byteOfN n)) (map N.of_nat (seq 0 256)) = true ->
  forall x, P x = true.
Proof.
  intros Hall x.
  assert (Hx : Hex.byteOfN (Byte.to_N x) = x) by (destruct x; reflexivity).
  rewrite <- Hx.
  apply (below_forallb 256 (fun n => P (Hex.byteOfN n)) Hall).
  apply byte_to_N_below.
Qed.

(** ** The hexadecimal codec *)

Lemma string_pair_ind (P : string -> Prop) :
  P EmptyString ->
  (forall a, P (String a EmptyString)) ->
  (forall a b s, P s -> P (String a (String b s))) ->
  forall s, P s.
Proof.
  intros Hnil Hone Hpair.
  fix IH 1. intros [|a [|b s]]; [exact Hnil | apply Hone | apply Hpair, IH].
Qed.

Lemma Hex_lowerDigit_value (a : ascii) :
  Hex.lowerDigit a = true ->
  exists hi, Hex.value a = Some hi /\ (hi < 16)%N /\ Hex.digit hi = a.
Proof.
  intros Ha.
  pose (P := fun c => implb (Hex.lowerDigit c)
                match Hex.value c with
                | Some hi => (hi <? 16)%N && Ascii.eqb (Hex.digit hi) c
                | None => false
                end).
  assert (HP : P a = true) by (apply ascii_forallb; vm_compute; reflexivity).
  unfold P in HP. rewrite Ha in HP. simpl in HP.
  destruct (Hex.value a) as [hi|]; [|discriminate].
  apply andb_true_iff in HP as [Hlt Heq].
  exists hi. split; [reflexivity|]. split.
  - now apply N.ltb_lt.
  - now apply Ascii.eqb_eq.
Qed.

Lemma Hex_byteOfN_to_N (n : N) : (n < 256)%N -> Byte.to_N (Hex.byteOfN n) = n.
Proof.
  intros Hn.
  pose (P := fun m => (Byte.to_N (Hex.byteOfN m) =? m)%N).
  apply N.eqb_eq. apply (below_forallb 256 P); [vm_compute; reflexivity | exact Hn].
Qed.

(** Decoding what was encoded gives the buffer back. *)
Lemma Hex_fromHex_toHex (b : Buffer) : Hex.fromHex (Hex.toHex b) = b.
Proof.
  induction b as [|x b IH]; [reflexivity|].
  change (Hex.toHex (x :: b))
    with (String (Hex.digit (Byte.to_N x / 16))
            (String (Hex.digit (Byte.to_N x mod 16)) (Hex.toHex b))).
  destruct x; cbn [Hex.fromHex]; (cbv - [Hex.fromHex Hex.toHex]); now rewrite IH.
Qed.

(** Encoding what was decoded gives the string back exactly when the string
    is canonical: an even number of lower-case digits. *)
Lemma Hex_toHex_fromHex (s : string) :
  Hex.canonical s = true -> Hex.toHex (Hex.fromHex s) = s.
Proof.
  induction s as [| a | a b s IH] using string_pair_ind; intros Hs.
  - reflexivity.
  - discriminate.
  - cbn [Hex.canonical] in Hs.
    apply andb_true_iff in Hs as [Hab Hs].
    apply andb_true_iff in Hab as [Ha Hb].
    destruct (Hex_lowerDigit_value a Ha) as (hi & Hva & Hhi & Hda).
    destruct (Hex_lowerDigit_value b Hb) as (lo & Hvb & Hlo & Hdb).
    cbn [Hex.fromHex]. rewrite Hva, Hvb. cbn [Hex.toHex].
    rewrite Hex_byteOfN_to_N by lia.
    replace ((16 * hi + lo) / 16)%N with hi
      by (apply (N.div_unique _ _ _ lo); lia).
    replace ((16 * hi + lo) mod 16)%N with lo
      by (apply (N.mod_unique _ _ hi); lia).
    rewrite Hda, Hdb, (IH Hs). reflexivity.
Qed.

Lemma Hex_canonical_toHex (b : Buffer) : Hex.canonical (Hex.toHex b) = true.
Proof.
  induction b as [|x b IH]; [reflexivity|].
  change (Hex.toHex (x :: b))
    with (String (Hex.digit (Byte.to_N x / 16))
            (String (Hex.digit (Byte.to_N x mod 16)) (Hex.toHex b))).
  cbn [Hex.canonical]. rewrite IH, andb_true_r.
  pose (P := fun y => Hex.lowerDigit (Hex.digit (Byte.to_N y / 16))
                      && Hex.lowerDigit (Hex.digit (Byte.to_N y mod 16))).
  apply (byte_forallb P). vm_compute. reflexivity.
Qed.

(** The converse: a string that survives the round trip is canonical. *)
Lemma Hex_canonical_iff (s : string) :
  Hex.canonical s = true <-> Hex.toHex (Hex.fromHex s) = s.
Proof.
  split; [apply Hex_toHex_fromHex|].
  intros <-. apply Hex_canonical_toHex.
Qed.

(** Upper-case digits are read and written back in lower case; an odd
    digit or a character that is no digit ends the decoding. *)
Example Hex_normalises :
  Hex.toHex (Hex.fromHex "00ffAB") = "00ffab"
  /\ Hex.toHex (Hex.fromHex "0a1") = "0a"
  /\ Hex.toHex (Hex.fromHex "12zz34") = "12".
Proof. repeat split. Qed.

(** ** The base64 codec of the reference platform *)

Lemma Base64_value_char (n : N) : (n < 64)%N -> Base64.value (Base64.char n) = Some n.
Proof.
  intros Hn.
  pose (P := fun m => match Base64.value (Base64.char m) with
                      | Some k => (k =? m)%N
                      | None => false
                      end).
  assert (HP : P n = true)
    by (apply (below_forallb 64 P); [vm_compute; reflexivity | exact Hn]).
  unfold P in HP. destruct (Base64.value (Base64.char n)) as [k|]; [|discriminate].
  apply N.eqb_eq in HP. now subst.
Qed.

Lemma Base64_value_pad : Base64.value "="%char = None.
Proof. reflexivity. Qed.

Lemma Base64_byteOfN_to_N (x : byte) : Base64.byteOfN (Byte.to_N x) = x.
Proof. destruct x; reflexivity. Qed.

Lemma Base64_decode_encode (b : Buffer) : Base64.decode (Base64.encode b) = b.
Proof.
  revert b. fix IH 1. intros [|x [|y [|z rest]]].
  - reflexivity.
  - pose proof (byte_to_N_below x) as Hx.
    cbn [Base64.encode Base64.decode].
    rewrite !Base64_value_char by divlia. rewrite Base64_value_pad.
    transitivity [Base64.byteOfN (Byte.to_N x)];
      [ | now rewrite Base64_byteOfN_to_N ].
    do 2 f_equal. divlia.
  - pose proof (byte_to_N_below x) as Hx. pose proof (byte_to_N_below y) as Hy.
    cbn [Base64.encode Base64.decode].
    rewrite !Base64_value_char by divlia. rewrite Base64_value_pad.
    transitivity [Base64.byteOfN (Byte.to_N x); Base64.byteOfN (Byte.to_N y)];
      [ | now rewrite !Base64_byteOfN_to_N ].
    cbv zeta. repeat f_equal; divlia.
  - pose proof (byte_to_N_below x) as Hx. pose proof (byte_to_N_below y) as Hy.
    pose proof (byte_to_N_below z) as Hz.
    change (Base64.encode (x :: y :: z :: rest))
      with (let n := (Byte.to_N x * 65536 + Byte.to_N y * 256 + Byte.to_N z)%N in
            String (Base64.char (n / 262144)) (String (Base64.char (n / 4096 mod 64))
              (String (Base64.char (n / 64 mod 64))
                 (String (Base64.char (n mod 64)) (Base64.encode rest))))).
    cbv zeta. cbn [Base64.decode].
    rewrite !Base64_value_char by divlia.
    rewrite (IH rest).
    transitivity (Base64.byteOfN (Byte.to_N x) :: Base64.byteOfN (Byte.to_N y)
                    :: Base64.byteOfN (Byte.to_N z) :: rest);
      [ | now rewrite !Base64_byteOfN_to_N ].
    cbv zeta. repeat f_equal; divlia.
Qed.

(** ** The session-secret manager *)

Section KeychainManagerFacts.
Context `{Platform}.

Lemma toBase64_truthy (key : Buffer) :
  Base64Codec -> key <> [] -> Js.truthy (toBase64 key) = true.
Proof.
  intros [Hround Hempty] Hkey.
  destruct (toBase64 key) eqn:Hencoded; [|reflexivity].
  exfalso. apply Hkey.
  rewrite <- (Hround key), Hencoded, <- Hempty. apply Hround.
Qed.

Lemma truthy_opt_Some (o : option string) :
  Js.truthy_opt o = true -> exists s, o = Some s /\ Js.truthy s = true.
Proof. destruct o as [s|]; [eauto | discriminate]. Qed.

(** *** The [device] table under [REPLACE INTO] *)

Lemma rowsFor_replaceInto (login : string) (row : DeviceKeys.t) (table : list DeviceKeys.t) :
  rowsFor login (replaceInto row table) =
    if String.eqb (DeviceKeys.login row) login then [row] else rowsFor login table.
Proof.
  unfold rowsFor, replaceInto. rewrite List.filter_app. cbn [List.filter].
  destruct (String.eqb (DeviceKeys.login row) login) eqn:Hrow.
  - apply String.eqb_eq in Hrow. subst login.
    replace (List.filter _ (List.filter _ table)) with (@nil DeviceKeys.t); [reflexivity|].
    induction table as [|r table IH]; [reflexivity|]. cbn [List.filter].
    destruct (String.eqb (DeviceKeys.login r) (DeviceKeys.login row)) eqn:Hr;
      cbn [negb List.filter]; [exact IH|]. now rewrite Hr.
  - rewrite app_nil_r.
    induction table as [|r table IH]; [reflexivity|]. cbn [List.filter].
    destruct (String.eqb (DeviceKeys.login r) (DeviceKeys.login row)) eqn:Hr;
      cbn [negb List.filter].
    + apply String.eqb_eq in Hr. rewrite Hr, Hrow. exact IH.
    + now rewrite IH.
Qed.

Lemma filter_others (login : string) (table : list DeviceKeys.t) :
  rowsFor login table = [] ->
  List.filter (fun r => negb (String.eqb (DeviceKeys.login r) login)) table = table.
Proof.
  unfold rowsFor. induction table as [|r table IH]; [reflexivity|]. cbn [List.filter].
  destruct (String.eqb (DeviceKeys.login r) login); [discriminate|].
  intros Hrest. cbn [negb]. now rewrite (IH Hrest).
Qed.

(** *** What any call does to the world *)

(** Whatever the arguments and the answers of the outside world, a call
    leaves the [device] table alone or replaces into it the row that seals
    the bundle it returns. *)
Lemma getSecrets_effects env deviceKeys masterPassword w :
  exists evs,
    trace (getSecrets env deviceKeys masterPassword w).2 = trace w ++ evs
    /\ transactions (getSecrets env deviceKeys masterPassword w).2 = transactions w
    /\ ((device (getSecrets env deviceKeys masterPassword w).2 = device w
         /\ List.filter isDeviceReplace evs = []
         /\ (deviceKeys = None ->
             exists e, (getSecrets env deviceKeys masterPassword w).1 = Throw e))
        \/ exists s localKey,
             (getSecrets env deviceKeys masterPassword w).1 = Ok s
             /\ deviceKeys = None
             /\ device (getSecrets env deviceKeys masterPassword w).2
                = replaceInto (sealedRow s localKey) (device w)
             /\ List.filter isDeviceReplace evs = [DeviceReplace (sealedRow s localKey)]).
Proof.
  destruct w as [kc dev txs tr]. unfold_keychainManager. cbn.
  repeat branch.
  all: rewrite <- ?app_assoc; cbn.
  all: eexists; split; [reflexivity|]; split; [reflexivity|].
  all: cbn.
  all: first [ left; repeat split; first [ discriminate | eexists; reflexivity ]
             | right; eexists (Secrets.mk _ _ _ _), _; repeat split; reflexivity ].
Qed.

(** *** The fast path *)

(** With a device row and a local key in the keychain, a call is the
    keychain read and at most two decryptions. *)
Lemma getSecrets_fast_path env deviceKeys masterPassword w encoded :
  keychain w !! (SERVICE, DeviceKeys.login deviceKeys) = Some encoded ->
  Js.truthy encoded = true ->
  let login := DeviceKeys.login deviceKeys in
  let localKey := fromBase64 encoded in
  let readKey := KeychainGet SERVICE login in
  let decryptPassword := Decrypt (DeviceKeys.masterPasswordEncrypted deviceKeys) localKey in
  let decryptSecretKey := Decrypt (DeviceKeys.secretKeyEncrypted deviceKeys) localKey in
  let finish password evs :=
    match decrypt (DeviceKeys.secretKeyEncrypted deviceKeys) localKey with
    | inr bytes =>
        (Ok (Secrets.mk login password (DeviceKeys.accessKey deviceKeys) (Hex.toHex bytes)),
         logged w (evs ++ [decryptSecretKey]))
    | inl reason => (Throw (DecryptionFailed reason), logged w (evs ++ [decryptSecretKey]))
    end in
  getSecrets env (Some deviceKeys) masterPassword w =
    if Js.truthy_opt masterPassword
    then finish (default "" masterPassword) [readKey]
    else
      match decrypt (DeviceKeys.masterPasswordEncrypted deviceKeys) localKey with
      | inr plain => finish (Js.bufferToString plain) [readKey; decryptPassword]
      | inl reason => (Throw (DecryptionFailed reason), logged w [readKey; decryptPassword])
      end.
Proof.
  intros Hkey Htruthy. destruct w as [kc dev txs tr]. cbn in Hkey.
  unfold logged. unfold_keychainManager. cbn. rewrite Hkey. cbn. rewrite Htruthy.
  repeat branch; rewrite <- ?app_assoc; reflexivity.
Qed.

(** The fast path on the row that seals a bundle under the cached key,
    with no password supplied. *)
Lemma getSecrets_fast_path_sealed env secrets localKey w encoded :
  RoundTrip ->
  keychain w !! (SERVICE, Secrets.login secrets) = Some encoded ->
  Js.truthy encoded = true ->
  fromBase64 encoded = localKey ->
  getSecrets env (Some (sealedRow secrets localKey)) None w =
    (Ok (Secrets.mk (Secrets.login secrets) (Secrets.masterPassword secrets)
           (Secrets.accessKey secrets) (Hex.toHex (Hex.fromHex (Secrets.secretKey secrets)))),
     logged w [KeychainGet SERVICE (Secrets.login secrets);
               Decrypt (DeviceKeys.masterPasswordEncrypted (sealedRow secrets localKey))
                 localKey;
               Decrypt (DeviceKeys.secretKeyEncrypted (sealedRow secrets localKey))
                 localKey]).
Proof.
  intros Hcipher Hkey Htruthy Hdecoded.
  erewrite getSecrets_fast_path by (cbn [sealedRow DeviceKeys.login]; eassumption).
  cbv zeta. rewrite Hdecoded.
  cbn [sealedRow DeviceKeys.login DeviceKeys.accessKey DeviceKeys.masterPasswordEncrypted
         DeviceKeys.secretKeyEncrypted Js.truthy_opt].
  rewrite !Hcipher. unfold Js.bufferToString, Js.bufferFromString.
  now rewrite string_of_list_byte_of_string.
Qed.

(** C10. On the fast path (a device row, and a local key in the keychain
    for its login) [getSecrets] writes nothing: the keychain, the [device]
    table and the transactions are as before, and the calls it makes are
    the keychain read and then the decryption, with the cached local key,
    of [masterPasswordEncrypted] (only when no password was supplied) and
    of [secretKeyEncrypted]; no derivation, registration or prompt. *)
Theorem fast_path_writes_nothing env deviceKeys masterPassword w encoded :
  keychain w !! (SERVICE, DeviceKeys.login deviceKeys) = Some encoded ->
  Js.truthy encoded = true ->
  let localKey := fromBase64 encoded in
  let decryptPassword := Decrypt (DeviceKeys.masterPasswordEncrypted deviceKeys) localKey in
  let decryptSecretKey := Decrypt (DeviceKeys.secretKeyEncrypted deviceKeys) localKey in
  let w' := (getSecrets env (Some deviceKeys) masterPassword w).2 in
  keychain w' = keychain w
  /\ device w' = device w
  /\ transactions w' = transactions w
  /\ exists evs,
       trace w' = trace w ++ KeychainGet SERVICE (DeviceKeys.login deviceKeys) :: evs
       /\ (Js.truthy_opt masterPassword = true /\ evs = [decryptSecretKey]
           \/ Js.truthy_opt masterPassword = false
              /\ (evs = [decryptPassword] \/ evs = [decryptPassword; decryptSecretKey])).
Proof.
  intros Hkey Htruthy. cbv zeta.
  rewrite (getSecrets_fast_path env deviceKeys masterPassword w encoded Hkey Htruthy).
  cbv zeta.
  destruct (Js.truthy_opt masterPassword);
    [| destruct (decrypt (DeviceKeys.masterPasswordEncrypted deviceKeys) _) ];
    try destruct (decrypt (DeviceKeys.secretKeyEncrypted deviceKeys) _);
    cbn; repeat split; eexists; (split; [reflexivity|]); auto.
Qed.

(** *** The first run *)

(** Without a device row, and once the registration has succeeded, a call
    is determined by what the keychain holds for the login and by the
    random source. *)
Lemma getSecrets_first_run env masterPassword w registration :
  registerDevice env (typedLogin env) = inr registration ->
  let login := typedLogin env in
  let password := effectivePassword env masterPassword in
  let s := Secrets.mk login password (Registration.deviceAccessKey registration)
             (Registration.deviceSecretKey registration) in
  let derivate := getDerivateUsingParametersFromEncryptedData password
                    (getDerivationParametersForLocalKey login) in
  let start :=
    [PromptLogin; KeychainGet SERVICE login]
    ++ (if Js.truthy_opt masterPassword then [] else [PromptMasterPassword])
    ++ [Derive password (getDerivationParametersForLocalKey login); RegisterDevice login] in
  let seal localKey :=
    [Encrypt localKey (Hex.fromHex (Secrets.secretKey s));
     Encrypt localKey (Js.bufferFromString password);
     Encrypt derivate localKey;
     DeviceReplace (sealedRow s localKey)] in
  getSecrets env None masterPassword w =
    if Js.truthy_opt (keychain w !! (SERVICE, login))
    then
      let localKey := fromBase64 (default "" (keychain w !! (SERVICE, login))) in
      (Ok s, mkWorld (keychain w) (replaceInto (sealedRow s localKey) (device w))
                     (transactions w) (trace w ++ start ++ seal localKey))
    else
      match randomBytes env 32 with
      | Some key =>
          (Ok s, mkWorld (<[(SERVICE, login) := toBase64 key]> (keychain w))
                         (replaceInto (sealedRow s key) (device w))
                         (transactions w)
                         (trace w ++ start
                            ++ [RandomBytes 32; KeychainSet SERVICE login (toBase64 key)]
                            ++ seal key))
      | None =>
          (Throw (Error "Unable to generate AES local key"),
           logged w (start ++ [RandomBytes 32]))
      end.
Proof.
  intros Hregistration. destruct w as [kc dev txs tr].
  unfold logged, effectivePassword, sealedRow. unfold_keychainManager. cbn.
  destruct (Js.truthy_opt (kc !! (SERVICE, typedLogin env)));
    destruct (Js.truthy_opt masterPassword); cbn; rewrite Hregistration; cbn;
    try destruct (randomBytes env 32); cbn; rewrite <- ?app_assoc; reflexivity.
Qed.

(** C1, as the code has it.  For a login with no device row, the
    first-run path of [getSecrets] registers the device and leaves exactly
    one row for the login; a later call with that row and no master password
    returns the same access key, and as secret key the lower-case
    hexadecimal writing of the bytes that the issued key decodes to: the
    secret key of the first call exactly when that one is an even number of
    lower-case hexadecimal digits.  The cipher obeys its round-trip law and
    the random source gives its 32 bytes. *)
Theorem first_run_then_fast_path_keys env env' masterPassword w registration key :
  RoundTrip -> Base64Codec ->
  rowsFor (typedLogin env) (device w) = [] ->
  registerDevice env (typedLogin env) = inr registration ->
  randomBytes env 32 = Some key -> length key = 32 ->
  exists secrets w1 row,
    getSecrets env None masterPassword w = (Ok secrets, w1)
    /\ Secrets.login secrets = typedLogin env
    /\ Secrets.accessKey secrets = Registration.deviceAccessKey registration
    /\ Secrets.secretKey secrets = Registration.deviceSecretKey registration
    /\ (exists evs, trace w1 = trace w ++ evs
                    /\ List.filter isRegisterDevice evs = [RegisterDevice (typedLogin env)])
    /\ device w1 = device w ++ [row]
    /\ rowsFor (typedLogin env) (device w1) = [row]
    /\ exists secrets' w2,
         getSecrets env' (Some row) None w1 = (Ok secrets', w2)
         /\ Secrets.accessKey secrets' = Secrets.accessKey secrets
         /\ Secrets.secretKey secrets' = Hex.toHex (Hex.fromHex (Secrets.secretKey secrets))
         /\ (Secrets.secretKey secrets' = Secrets.secretKey secrets
             <-> Hex.canonical (Secrets.secretKey secrets) = true).
Proof.
  intros Hcipher Hcodec Hfresh Hregistration Hrandom Hlength.
  assert (Hkey : key <> []) by (intros ->; discriminate).
  pose proof (toBase64_truthy key Hcodec Hkey) as Htruthy.
  destruct Hcodec as [Hround _].
  rewrite (getSecrets_first_run env masterPassword w registration Hregistration).
  cbv zeta. rewrite Hrandom.
  destruct (Js.truthy_opt (keychain w !! (SERVICE, typedLogin env))) eqn:Hcached.
  - (* the keychain already holds a key for the login *)
    apply truthy_opt_Some in Hcached as (encoded & Hencoded & Hnonempty).
    rewrite Hencoded. cbn [default].
    eexists _, _, _. split; [reflexivity|]. cbn [Secrets.login Secrets.accessKey Secrets.secretKey].
    do 3 (split; [reflexivity|]). split; [| split; [| split]].
    + eexists. split; [reflexivity|]. cbn [trace].
      destruct (Js.truthy_opt masterPassword); reflexivity.
    + cbn [device]. unfold replaceInto. cbn [sealedRow DeviceKeys.login Secrets.login].
      now rewrite (filter_others _ _ Hfresh).
    + cbn [device]. rewrite rowsFor_replaceInto. cbn. now rewrite String.eqb_refl.
    + erewrite getSecrets_fast_path by (cbn; eassumption).
      cbn. rewrite !Hcipher. eexists _, _. split; [reflexivity|]. cbn.
      do 2 (split; [reflexivity|]). symmetry. apply Hex_canonical_iff.
  - (* a fresh local key is generated and cached *)
    eexists _, _, _. split; [reflexivity|]. cbn [Secrets.login Secrets.accessKey Secrets.secretKey].
    do 3 (split; [reflexivity|]). split; [| split; [| split]].
    + eexists. split; [reflexivity|]. cbn [trace].
      destruct (Js.truthy_opt masterPassword); reflexivity.
    + cbn [device]. unfold replaceInto. cbn [sealedRow DeviceKeys.login Secrets.login].
      now rewrite (filter_others _ _ Hfresh).
    + cbn [device]. rewrite rowsFor_replaceInto. cbn. now rewrite String.eqb_refl.
    + erewrite getSecrets_fast_path
        by first [apply lookup_insert_eq | exact Htruthy].
      cbn. rewrite Hround, !Hcipher. eexists _, _. split; [reflexivity|]. cbn.
      do 2 (split; [reflexivity|]). symmetry. apply Hex_canonical_iff.
Qed.

(** *** The recovery path *)

(** With a device row and nothing in the keychain for its login, a call
    derives, decrypts twice and caches the local key. *)
Lemma getSecrets_recovery env deviceKeys masterPassword w :
  Js.truthy_opt (keychain w !! (SERVICE, DeviceKeys.login deviceKeys)) = false ->
  let login := DeviceKeys.login deviceKeys in
  let password := effectivePassword env masterPassword in
  let parameters := getDerivationParametersForLocalKey login in
  let derivate := getDerivateUsingParametersFromEncryptedData password parameters in
  let start :=
    [KeychainGet SERVICE login]
    ++ (if Js.truthy_opt masterPassword then [] else [PromptMasterPassword])
    ++ [Derive password parameters;
        Decrypt (DeviceKeys.localKeyEncrypted deviceKeys) derivate] in
  getSecrets env (Some deviceKeys) masterPassword w =
    match decrypt (DeviceKeys.localKeyEncrypted deviceKeys) derivate with
    | inl reason => (Throw (DecryptionFailed reason), logged w start)
    | inr localKey =>
        let decryptSecretKey := Decrypt (DeviceKeys.secretKeyEncrypted deviceKeys) localKey in
        match decrypt (DeviceKeys.secretKeyEncrypted deviceKeys) localKey with
        | inl reason =>
            (Throw (DecryptionFailed reason), logged w (start ++ [decryptSecretKey]))
        | inr bytes =>
            (Ok (Secrets.mk login password (DeviceKeys.accessKey deviceKeys) (Hex.toHex bytes)),
             mkWorld (<[(SERVICE, login) := toBase64 localKey]> (keychain w))
                     (device w) (transactions w)
                     (trace w ++ start
                        ++ [decryptSecretKey;
                            KeychainSet SERVICE login (toBase64 localKey)]))
        end
    end.
Proof.
  intros Habsent. destruct w as [kc dev txs tr]. cbn in Habsent.
  unfold logged, effectivePassword. unfold_keychainManager. cbn. rewrite Habsent.
  destruct (Js.truthy_opt masterPassword); cbn;
    repeat branch; rewrite <- ?app_assoc; reflexivity.
Qed.

(** C2. With the device row that the first run stored and no local key
    in the keychain, [getSecrets] with the right master password derives
    the derivate, decrypts [localKeyEncrypted] with it and
    [secretKeyEncrypted] with the local key, returns the bundle of the
    first run, and stores the local key in the keychain again; the next
    call for the login makes the keychain read and decryptions with that
    local key only: no prompt, no derivation. *)
Theorem recovery_restores_fast_path env env' masterPassword masterPassword' w secrets localKey :
  RoundTrip -> Base64Codec ->
  localKey <> [] ->
  Hex.canonical (Secrets.secretKey secrets) = true ->
  Js.truthy_opt (keychain w !! (SERVICE, Secrets.login secrets)) = false ->
  effectivePassword env masterPassword = Secrets.masterPassword secrets ->
  let login := Secrets.login secrets in
  let row := sealedRow secrets localKey in
  let parameters := getDerivationParametersForLocalKey login in
  let derivate :=
    getDerivateUsingParametersFromEncryptedData (Secrets.masterPassword secrets) parameters in
  exists w1,
    getSecrets env (Some row) masterPassword w = (Ok secrets, w1)
    /\ keychain w1 = <[(SERVICE, login) := toBase64 localKey]> (keychain w)
    /\ device w1 = device w
    /\ trace w1 =
         trace w ++ [KeychainGet SERVICE login]
           ++ (if Js.truthy_opt masterPassword then [] else [PromptMasterPassword])
           ++ [Derive (Secrets.masterPassword secrets) parameters;
               Decrypt (DeviceKeys.localKeyEncrypted row) derivate;
               Decrypt (DeviceKeys.secretKeyEncrypted row) localKey;
               KeychainSet SERVICE login (toBase64 localKey)]
    /\ exists secrets' evs,
         getSecrets env' (Some row) masterPassword' w1
           = (Ok secrets', logged w1 (KeychainGet SERVICE login :: evs))
         /\ Secrets.secretKey secrets' = Secrets.secretKey secrets
         /\ Forall (fun ev => exists data, ev = Decrypt data localKey) evs.
Proof.
  intros Hcipher Hcodec Hkey Hhex Habsent Hpassword. cbv zeta.
  pose proof (toBase64_truthy localKey Hcodec Hkey) as Htruthy.
  destruct Hcodec as [Hround _].
  rewrite (getSecrets_recovery env (sealedRow secrets localKey) masterPassword w Habsent).
  cbv zeta. rewrite Hpassword. cbn [sealedRow DeviceKeys.login DeviceKeys.accessKey
    DeviceKeys.localKeyEncrypted DeviceKeys.secretKeyEncrypted].
  rewrite !Hcipher, (Hex_toHex_fromHex _ Hhex).
  eexists. split; [destruct secrets; reflexivity|].
  cbn [keychain device trace]. do 2 (split; [reflexivity|]).
  split; [now rewrite <- !app_assoc|].
  erewrite getSecrets_fast_path by first [apply lookup_insert_eq | exact Htruthy].
  cbn [sealedRow DeviceKeys.login DeviceKeys.accessKey DeviceKeys.localKeyEncrypted
         DeviceKeys.secretKeyEncrypted DeviceKeys.masterPasswordEncrypted].
  rewrite Hround, !Hcipher, (Hex_toHex_fromHex _ Hhex).
  destruct (Js.truthy_opt masterPassword'); eexists (Secrets.mk _ _ _ _), _;
    (split; [reflexivity|]); (split; [reflexivity|]);
    repeat constructor; eexists; reflexivity.
Qed.

(** *** The device table *)

(** C3. In every execution of [getSecrets], a row written to the
    [device] table is the row that seals the returned bundle: the local
    key encrypted under the derivate of the master password, the secret
    key and the master password encrypted under the local key.  Nothing
    else is written to the database. *)
Theorem device_rows_hold_ciphertext_only env deviceKeys masterPassword w :
  let out := (getSecrets env deviceKeys masterPassword w).1 in
  let w' := (getSecrets env deviceKeys masterPassword w).2 in
  let sealed row := exists s localKey, out = Ok s /\ row = sealedRow s localKey in
  exists evs,
    trace w' = trace w ++ evs
    /\ transactions w' = transactions w
    /\ (forall row, In (DeviceReplace row) evs -> sealed row)
    /\ (forall row, In row (device w') -> In row (device w) \/ sealed row).
Proof.
  cbv zeta.
  destruct (getSecrets_effects env deviceKeys masterPassword w)
    as (evs & Htrace & Htransactions & Hdevice).
  exists evs. do 2 (split; [assumption|]).
  destruct Hdevice as [(Hsame & Hnone & _) | (s & localKey & Hout & _ & Hreplaced & Hone)].
  - split.
    + intros row Hin.
      assert (Hfiltered : In (DeviceReplace row) (List.filter isDeviceReplace evs))
        by (apply List.filter_In; split; [exact Hin | reflexivity]).
      rewrite Hnone in Hfiltered. destruct Hfiltered.
    + intros row Hin. left. now rewrite <- Hsame.
  - split.
    + intros row Hin.
      assert (Hfiltered : In (DeviceReplace row) (List.filter isDeviceReplace evs))
        by (apply List.filter_In; split; [exact Hin | reflexivity]).
      rewrite Hone in Hfiltered. destruct Hfiltered as [Heq | []].
      exists s, localKey. split; [exact Hout | congruence].
    + intros row Hin. rewrite Hreplaced in Hin. unfold replaceInto in Hin.
      apply List.in_app_or in Hin as [Hold | [Hnew | []]].
      * left. now apply List.filter_In in Hold.
      * right. exists s, localKey. split; [exact Hout | congruence].
Qed.

Lemma getSecrets_one_row_per_login env deviceKeys masterPassword w :
  (forall login, length (rowsFor login (device w)) <= 1) ->
  forall login,
    length (rowsFor login (device (getSecrets env deviceKeys masterPassword w).2)) <= 1.
Proof.
  intros Hunique login.
  destruct (getSecrets_effects env deviceKeys masterPassword w)
    as (evs & _ & _ & [(Hsame & _) | (s & localKey & _ & _ & Hreplaced & _)]).
  - rewrite Hsame. apply Hunique.
  - rewrite Hreplaced, rowsFor_replaceInto.
    destruct (String.eqb _ login); [cbn; lia | apply Hunique].
Qed.

(** C9. The [device] table never holds two rows for a login: if it holds
    at most one row per login, so it does after any sequence of
    [getSecrets] calls; and a first-run setup that succeeds leaves exactly
    one row for its login, the one that seals the returned bundle, also
    when a row for the login was there before. *)
Theorem device_one_row_per_login (calls : list Call) w :
  (forall login, length (rowsFor login (device w)) <= 1) ->
  (forall login, length (rowsFor login (device (getSecretsCalls calls w))) <= 1)
  /\ (forall env masterPassword s,
        (getSecrets env None masterPassword w).1 = Ok s ->
        exists localKey,
          rowsFor (Secrets.login s) (device (getSecrets env None masterPassword w).2)
            = [sealedRow s localKey]).
Proof.
  intros Hunique. split.
  - revert w Hunique. induction calls as [|c calls IH]; intros w Hunique; [exact Hunique|].
    cbn [getSecretsCalls]. apply IH. now apply getSecrets_one_row_per_login.
  - intros env masterPassword s Hout.
    destruct (getSecrets_effects env None masterPassword w)
      as (evs & _ & _ & [(_ & _ & Hthrown) | (s' & localKey & Hout' & _ & Hreplaced & _)]).
    + destruct (Hthrown eq_refl) as [e He]. congruence.
    + assert (s' = s) as -> by congruence.
      exists localKey. rewrite Hreplaced, rowsFor_replaceInto.
      cbn [sealedRow DeviceKeys.login]. now rewrite String.eqb_refl.
Qed.

(** *** Key generation *)

(** C7, as the code has it. [setLocalKey] without a key fails, with the
    error [Unable to generate AES local key] and before anything is stored
    in the keychain, exactly when the random source gives no buffer at
    all; a buffer of any length is stored and returned.  That error is
    not a decryption error. *)
Theorem setLocalKey_fails_only_without_buffer env login w :
  setLocalKey env login None w =
    match randomBytes env 32 with
    | None =>
        (Throw (Error "Unable to generate AES local key"), logged w [RandomBytes 32])
    | Some key =>
        (Ok key,
         mkWorld (<[(SERVICE, login) := toBase64 key]> (keychain w))
                 (device w) (transactions w)
                 (trace w ++ [RandomBytes 32; KeychainSet SERVICE login (toBase64 key)]))
    end
  /\ keychain (logged w [RandomBytes 32]) = keychain w
  /\ forall reason, Error "Unable to generate AES local key" <> DecryptionFailed reason.
Proof.
  split; [| split; [reflexivity | discriminate]].
  destruct w as [kc dev txs tr]. unfold logged. unfold_keychainManager. cbn.
  destruct (randomBytes env 32); cbn; rewrite <- ?app_assoc; reflexivity.
Qed.

End KeychainManagerFacts.

(** ** Strings *)

Lemma startsWith_spec (s p : string) :
  Js.startsWith s p = true <-> exists after, s = p +:+ after.
Proof.
  revert s. induction p as [|a p IH]; intros s.
  - split; [intros _; now exists s | intros _; now destruct s].
  - destruct s as [|b s]; cbn.
    + split; [discriminate | intros [after Hafter]; discriminate].
    + rewrite andb_true_iff, Ascii.eqb_eq, IH. split.
      * intros [-> [after ->]]. now exists after.
      * intros [after [= -> ->]]. eauto.
Qed.

(** [includes] decides the substring relation. *)
Lemma includes_spec (s p : string) :
  Js.includes s p = true <-> exists before after, s = before +:+ p +:+ after.
Proof.
  induction s as [|c s IH].
  - cbn [Js.includes]. rewrite orb_false_r, startsWith_spec. split.
    + intros [after Hafter]. now exists EmptyString, after.
    + intros ([|b before] & after & Hs); [now exists after | discriminate].
  - cbn [Js.includes]. rewrite orb_true_iff, startsWith_spec, IH. split.
    + intros [[after Hafter] | (before & after & ->)].
      * now exists EmptyString, after.
      * now exists (String c before), after.
    + intros ([|b before] & after & Hs).
      * left. now exists after.
      * right. injection Hs as -> ->. now exists before, after.
Qed.

(** [lowerChar] moves the upper-case letters to the lower-case ones and
    nothing else. *)
Lemma lowerChar_cases (c : ascii) :
  Js.lowerChar c = c
  \/ (65 <= N_of_ascii c <= 90)%N /\ N_of_ascii (Js.lowerChar c) = (N_of_ascii c + 32)%N.
Proof.
  unfold Js.lowerChar. cbv zeta.
  destruct ((65 <=? N_of_ascii c) && (N_of_ascii c <=? 90))%N eqn:Hupper; [right | now left].
  apply andb_true_iff in Hupper as [Hlow Hhigh].
  apply N.leb_le in Hlow, Hhigh. split; [lia|].
  rewrite N_ascii_embedding; lia.
Qed.

(** Lower-casing keeps ASCII text ASCII. *)
Lemma toLowerCase_isAscii (s : string) :
  Js.isAscii s = true -> Js.isAscii (Js.toLowerCase s) = true.
Proof.
  induction s as [|c s IH]; [reflexivity|]. cbn [Js.isAscii Js.toLowerCase].
  rewrite !andb_true_iff. intros [Hc Hs]. split; [|now apply IH].
  unfold Js.isAsciiChar in *. apply N.ltb_lt in Hc. apply N.ltb_lt.
  destruct (lowerChar_cases c) as [-> | [Hupper ->]]; lia.
Qed.

(** No string is before itself. *)
Lemma String_ltb_irrefl (s : string) : String.ltb s s = false.
Proof.
  unfold String.ltb. pose proof (String.compare_antisym s s) as Hanti.
  now destruct (String.compare s s).
Qed.

(** ** The secure-note retriever *)

Section GetSecureNotesFacts.
Context `{Platform}.

(** *** Decryption of the batch *)

Lemma traverse_do_decryptTransaction secrets (batch : list Transaction.t) w :
  traverse (do_decryptTransaction secrets) batch w =
    (Ok (map (fun t => decryptTransaction t secrets) batch),
     logged w (map DecryptTransaction batch)).
Proof.
  revert w. induction batch as [|t batch IH]; intros [kc dev txs tr].
  - unfold logged. cbn. now rewrite app_nil_r.
  - cbn [traverse]. unfold bind at 1. unfold do_decryptTransaction at 1.
    unfold bind at 1, emit, ret. cbn. unfold bind. rewrite IH.
    unfold logged. cbn. now rewrite <- app_assoc.
Qed.

Lemma promiseAll_world {A} failed (promises : list (string + A)) w :
  (promiseAll failed promises w).2 = w.
Proof.
  induction promises as [|[reason|a] promises IH]; cbn; try reflexivity.
  unfold bind. destruct (promiseAll failed promises w) as [[values|e] w']; cbn in *; congruence.
Qed.

(** One rejection rejects the whole. *)
Lemma promiseAll_rejected {A} failed (promises : list (string + A)) w reason :
  In (inl reason) promises ->
  exists reason', In (inl reason') promises
                  /\ promiseAll failed promises w = (Throw (failed reason'), w).
Proof.
  induction promises as [|[r|a] promises IH]; intros Hin.
  - destruct Hin.
  - exists r. split; [now left | reflexivity].
  - destruct Hin as [Hin | Hin]; [discriminate|].
    destruct (IH Hin) as (reason' & Hin' & Hthrow).
    exists reason'. split; [now right|]. cbn. unfold bind. now rewrite Hthrow.
Qed.

(** *** The calls of the first part of [getNote] *)

(** A map or a filter by a function that leaves the world alone leaves
    the world alone. *)
Lemma traverse_world {A B} (f : A -> M B) (l : list A) w :
  (forall a w0, (f a w0).2 = w0) -> (traverse f l w).2 = w.
Proof.
  intros Hf. induction l as [|a l IH]; [reflexivity|].
  cbn [traverse]. unfold bind. pose proof (Hf a w) as Ha.
  destruct (f a w) as [[b|e] w1]; cbn in Ha; subst w1; [|reflexivity].
  destruct (traverse f l w) as [[bs|e] w1]; cbn in *; congruence.
Qed.

Lemma filterM_world {A} (p : A -> M bool) (l : list A) w :
  (forall a w0, (p a w0).2 = w0) -> (filterM p l w).2 = w.
Proof.
  intros Hp. induction l as [|a l IH]; [reflexivity|].
  cbn [filterM]. unfold bind. pose proof (Hp a w) as Ha.
  destruct (p a w) as [[b|e] w1]; cbn in Ha; subst w1; [|reflexivity].
  destruct (filterM p l w) as [[bs|e] w1]; cbn in *; congruence.
Qed.

Lemma beautifyEntry_world entry w : (beautifyEntry entry w).2 = w.
Proof. unfold beautifyEntry. now destruct (Js.charAt0 _). Qed.

Lemma beautify_world item w : (beautify item w).2 = w.
Proof.
  unfold beautify, bind.
  pose proof (traverse_world beautifyEntry
                (SecureNote.KWDataItem (SecureNote.KWSecureNote (SecureNote.root item))) w
                beautifyEntry_world) as Hentries.
  destruct (traverse beautifyEntry _ w) as [[l|e] w']; cbn in *; congruence.
Qed.

Lemma titleMatches_world filter note w : (titleMatches filter note w).2 = w.
Proof. unfold titleMatches. now destruct (note !! "title"). Qed.

Lemma sortKey_run note w :
  sortKey note w =
    match note !! "toString" with
    | None => (Ok ("[object Object]", note), w)
    | Some _ => (Throw (TypeError "Cannot convert object to primitive value"), w)
    end.
Proof. unfold sortKey, objectToString, bind. now destruct (note !! "toString"). Qed.

Lemma sortKey_world note w : (sortKey note w).2 = w.
Proof. rewrite sortKey_run. now destruct (note !! "toString"). Qed.

Lemma sort_world (notes : list VaultNote) w : (sort notes w).2 = w.
Proof.
  destruct notes as [|note [|note' notes]]; try reflexivity.
  unfold sort, bind.
  pose proof (traverse_world sortKey (note :: note' :: notes) w sortKey_world) as Hkeys.
  destruct (traverse sortKey _ w) as [[converted|e] w']; cbn in *; congruence.
Qed.

Lemma optionalCall_world {A B} (x : option A) (f : A -> M B) w :
  (forall a w0, (f a w0).2 = w0) -> (optionalCall x f w).2 = w.
Proof.
  intros Hf. destruct x as [a|]; [|reflexivity].
  unfold optionalCall, bind. pose proof (Hf a w) as Ha.
  destruct (f a w) as [[b|e] w']; cbn in *; congruence.
Qed.

Lemma matchNotes_world titleFilter beautifiedNotes w :
  (matchNotes titleFilter beautifiedNotes w).2 = w.
Proof.
  unfold matchNotes. unfold bind at 1.
  destruct (Js.truthy_opt titleFilter).
  - cbv zeta.
    pose proof (optionalCall_world beautifiedNotes
                  (filterM (titleMatches (Js.toLowerCase (default "" titleFilter)))) w
                  (fun notes w0 => filterM_world _ notes w0 (titleMatches_world _)))
      as Hfiltered.
    destruct (optionalCall beautifiedNotes _ w) as [[matched|e] w'];
      cbn in Hfiltered; subst w'; [|reflexivity].
    apply optionalCall_world, sort_world.
  - unfold ret at 1. apply optionalCall_world, sort_world.
Qed.

(** The first part of [getNote] logs, queries and starts the decryption
    of every secure note of the login, whatever comes of it. *)
Lemma getBeautifiedNotes_world params w :
  (getBeautifiedNotes params w).2 =
    logged w
      (WinstonDebug ("Retrieving: " +:+
         (if Js.truthy_opt (titleFilter params) then default "" (titleFilter params) else ""))
       :: TransactionsSelect (Secrets.login (secrets params))
       :: map DecryptTransaction (secureNoteBatch (secrets params) w)).
Proof.
  destruct w as [kc dev txs tr].
  unfold getBeautifiedNotes, decryptSecureNotesTransactions, db_selectTransactions.
  unfold bind at 1. unfold emit at 1. unfold bind at 1. unfold bind at 1.
  unfold emit at 1. cbn. unfold bind at 1. unfold bind at 1.
  rewrite traverse_do_decryptTransaction. unfold logged, secureNoteBatch. cbn.
  rewrite <- !app_assoc. cbn. unfold bind, ret, optionalCall.
  match goal with |- context [promiseAll ?f ?ps ?w0] =>
    pose proof (promiseAll_world f ps w0) as Hall;
    destruct (promiseAll f ps w0) as [[values|e] w1]
  end; cbn in *; subst; [|reflexivity].
  unfold bind, ret.
  match goal with |- context [traverse beautify ?items ?w0] =>
    pose proof (traverse_world beautify items w0 beautify_world) as Hall;
    destruct (traverse beautify items w0) as [[notes|e] w1]
  end; cbn in *; subst; reflexivity.
Qed.

Lemma filter_isAsk_DecryptTransaction (batch : list Transaction.t) :
  List.filter isAskSecureNoteChoice (map DecryptTransaction batch) = []
  /\ List.filter isConsoleLog (map DecryptTransaction batch) = [].
Proof. induction batch as [|t batch [IHa IHc]]; split; cbn; auto. Qed.

(** A secure note of the batch that does not decrypt rejects the first
    part of [getNote]. *)
Lemma getBeautifiedNotes_rejected params w transaction reason :
  In transaction (secureNoteBatch (secrets params) w) ->
  decryptTransaction transaction (secrets params) = inl reason ->
  exists culprit reason',
    In culprit (secureNoteBatch (secrets params) w)
    /\ decryptTransaction culprit (secrets params) = inl reason'
    /\ (getBeautifiedNotes params w).1 = Throw (TransactionDecryptionFailed reason').
Proof.
  intros Hin Hfails. destruct w as [kc dev txs tr].
  assert (Hrejected : In (inl reason)
            (map (fun t => decryptTransaction t (secrets params))
                 (secureNoteBatch (secrets params) (mkWorld kc dev txs tr))))
    by (apply in_map_iff; exists transaction; split; assumption).
  unfold getBeautifiedNotes, decryptSecureNotesTransactions, db_selectTransactions.
  unfold bind at 1. unfold emit at 1. unfold bind at 1. unfold bind at 1.
  unfold emit at 1. cbn. unfold bind at 1. unfold bind at 1.
  rewrite traverse_do_decryptTransaction. unfold bind.
  match goal with |- context [promiseAll ?f _ ?w0] =>
    destruct (promiseAll_rejected f _ w0 reason Hrejected) as (reason' & Hin' & Hthrow)
  end.
  apply in_map_iff in Hin' as (culprit & Hculprit & Hbatch).
  exists culprit, reason'. do 2 (split; [assumption|]).
  unfold secureNoteBatch in Hthrow. cbn in Hthrow. now rewrite Hthrow.
Qed.

(** C4. If a secure note of the batch that [getNote] decrypts does not
    decrypt, [getNote] throws the decryption error of a note of the batch
    (that very error when it is the only one), after the decryptions were
    started and before anything else: no note is chosen or printed, and
    the notes that did decrypt are not carried forward. *)
Theorem getNote_aborts_on_undecryptable_note env params w transaction reason :
  In transaction (secureNoteBatch (secrets params) w) ->
  decryptTransaction transaction (secrets params) = inl reason ->
  exists culprit reason' evs,
    In culprit (secureNoteBatch (secrets params) w)
    /\ decryptTransaction culprit (secrets params) = inl reason'
    /\ getNote env params w = (Throw (TransactionDecryptionFailed reason'), logged w evs)
    /\ List.filter isAskSecureNoteChoice evs = []
    /\ List.filter isConsoleLog evs = []
    /\ ((forall other reason'',
           In other (secureNoteBatch (secrets params) w) ->
           decryptTransaction other (secrets params) = inl reason'' ->
           reason'' = reason) ->
        reason' = reason).
Proof.
  intros Hin Hfails.
  destruct (getBeautifiedNotes_rejected params w transaction reason Hin Hfails)
    as (culprit & reason' & Hculprit & Hreason' & Hthrown).
  pose proof (getBeautifiedNotes_world params w) as Hworld.
  exists culprit, reason'. eexists. do 2 (split; [assumption|]).
  split; [| split; [| split]].
  - unfold getNote, bind.
    destruct (getBeautifiedNotes params w) as [r w1]. cbn in Hthrown, Hworld.
    subst r w1. reflexivity.
  - cbn. apply filter_isAsk_DecryptTransaction.
  - cbn. apply filter_isAsk_DecryptTransaction.
  - intros Honly. now apply (Honly culprit).
Qed.

(** *** The attribute-key transform *)

Lemma fromEntries_snoc (entries : list (string * string)) entry :
  fromEntries (entries ++ [entry]) = <[entry.1 := entry.2]> (fromEntries entries).
Proof. unfold fromEntries. now rewrite fold_left_app. Qed.

(** A field of the object holds the value of the last entry of its name. *)
Lemma fromEntries_lookup {A} (name : A -> string) (data : A -> string) (l : list A) field value :
  fromEntries (map (fun a => (name a, data a)) l) !! field = Some value <->
  exists before a after,
    l = before ++ a :: after /\ name a = field /\ data a = value
    /\ forall later, In later after -> name later <> field.
Proof.
  induction l as [|last l IH] using rev_ind.
  - cbn. rewrite lookup_empty. split; [discriminate|].
    intros (before & a & after & Hl & _). now destruct before.
  - rewrite map_app. cbn [map]. rewrite fromEntries_snoc. cbn [fst snd].
    destruct (decide (name last = field)) as [Hlast | Hlast].
    + rewrite Hlast, lookup_insert_eq. split.
      * intros [= <-]. exists l, last, []. repeat split; auto; intros later [].
      * intros (before & a & after & Hl & Ha & Hdata & Hafter).
        destruct after as [|x after _] using rev_ind.
        -- apply app_inj_tail in Hl as [_ ->]. now rewrite Hdata.
        -- exfalso. rewrite app_comm_cons, app_assoc in Hl.
           apply app_inj_tail in Hl as [_ ->].
           apply (Hafter x); [apply in_or_app; right; now left | exact Hlast].
    + rewrite lookup_insert_ne by exact Hlast. rewrite IH. split.
      * intros (before & a & after & -> & Ha & Hdata & Hafter).
        exists before, a, (after ++ [last]). split; [now rewrite <- app_assoc|].
        do 2 (split; [assumption|]).
        intros later Hin. apply in_app_or in Hin as [Hin | [<- | []]]; auto.
      * intros (before & a & after & Hl & Ha & Hdata & Hafter).
        destruct after as [|x after _] using rev_ind.
        -- apply app_inj_tail in Hl as [_ ->]. contradiction.
        -- rewrite app_comm_cons, app_assoc in Hl.
           apply app_inj_tail in Hl as [-> ->].
           exists before, a, after. repeat split; auto.
           intros later Hin. apply Hafter, in_or_app. now left.
Qed.

Lemma beautifyEntry_fieldName entry w :
  SecureNote.key (SecureNote._attributes entry) <> EmptyString ->
  beautifyEntry entry w =
    (Ok (fieldName (SecureNote.key (SecureNote._attributes entry)), SecureNote._cdata entry), w).
Proof.
  unfold beautifyEntry.
  destruct (SecureNote.key (SecureNote._attributes entry)) as [|c rest]; [congruence|].
  reflexivity.
Qed.

Lemma traverse_beautifyEntry (entries : list SecureNote.Entry) w :
  (forall entry, In entry entries ->
                 SecureNote.key (SecureNote._attributes entry) <> EmptyString) ->
  traverse beautifyEntry entries w =
    (Ok (map (fun entry => (fieldName (SecureNote.key (SecureNote._attributes entry)),
                            SecureNote._cdata entry)) entries), w).
Proof.
  intros Hkeys. induction entries as [|entry entries IH]; [reflexivity|].
  cbn [traverse map]. unfold bind.
  rewrite beautifyEntry_fieldName by (apply Hkeys; now left).
  rewrite IH by (intros e He; apply Hkeys; now right). reflexivity.
Qed.

(** C8. [getNote] reshapes a decrypted payload, whose attribute keys are
    not empty and are ASCII text, into the object that has, for each
    attribute entry, a field named by the key with only its first character
    lower-cased ([OtpSecret] gives [otpSecret], [Title] gives [title], any
    other key alike) and holding the entry's data; of two entries that give
    the same field name the later one is kept, and there is no other
    field. *)
Theorem beautify_fields item w :
  let entries := SecureNote.KWDataItem (SecureNote.KWSecureNote (SecureNote.root item)) in
  (forall entry, In entry entries ->
                 SecureNote.key (SecureNote._attributes entry) <> EmptyString
                 /\ Js.isAscii (SecureNote.key (SecureNote._attributes entry)) = true) ->
  exists note,
    beautify item w = (Ok note, w)
    /\ (forall field value,
          note !! field = Some value <->
          exists before entry after,
            entries = before ++ entry :: after
            /\ fieldName (SecureNote.key (SecureNote._attributes entry)) = field
            /\ SecureNote._cdata entry = value
            /\ forall later, In later after ->
                 fieldName (SecureNote.key (SecureNote._attributes later)) <> field)
    /\ fieldName "OtpSecret" = "otpSecret"
    /\ fieldName "Title" = "title"
    /\ forall c rest,
         Js.isAsciiChar c = true ->
         fieldName (String c rest) = String (Js.lowerChar c) rest
         /\ (Js.lowerChar c = c
             \/ (65 <= N_of_ascii c <= 90)%N
                /\ N_of_ascii (Js.lowerChar c) = (N_of_ascii c + 32)%N).
Proof.
  intros entries Hkeys. eexists. split; [| split].
  - unfold beautify, bind. fold entries.
    rewrite (traverse_beautifyEntry entries w (fun entry Hin => proj1 (Hkeys entry Hin))).
    reflexivity.
  - intros field value. apply fromEntries_lookup.
  - do 2 (split; [reflexivity|]). intros c rest _. split; [reflexivity|].
    apply lowerChar_cases.
Qed.

(** An entry with an empty key stops the reshaping: [key[0]] is
    [undefined]. *)
Lemma beautifyEntry_empty_key entry w :
  SecureNote.key (SecureNote._attributes entry) = EmptyString ->
  exists message, beautifyEntry entry w = (Throw (TypeError message), w).
Proof. intros Hkey. unfold beautifyEntry. rewrite Hkey. eexists. reflexivity. Qed.

(** *** The title filter *)

(** Plain notes all become the same string, so that the sort moves
    none. *)
Lemma traverse_sortKey_plain (notes : list VaultNote) w :
  (forall note, In note notes -> note !! "toString" = None) ->
  traverse sortKey notes w = (Ok (map (pair "[object Object]") notes), w).
Proof.
  intros Hplain. induction notes as [|note notes IH]; [reflexivity|].
  cbn [traverse map]. unfold bind at 1. rewrite sortKey_run.
  rewrite (Hplain note) by now left. unfold bind.
  rewrite IH by (intros n Hn; apply Hplain; now right). reflexivity.
Qed.

Lemma sortInsert_equal_keys (converted : string) (notes : list VaultNote) :
  map snd (fold_right sortInsert [] (map (pair converted) notes)) = notes.
Proof.
  induction notes as [|note notes IH]; [reflexivity|].
  cbn [map fold_right].
  destruct (fold_right sortInsert [] (map (pair converted) notes)) as [|other rest] eqn:Hrest.
  - destruct notes; [reflexivity | discriminate].
  - destruct notes as [|note' notes]; [discriminate|].
    cbn [sortInsert].
    assert (Hother : other.1 = converted).
    { clear IH. revert other rest Hrest.
      induction (note' :: notes) as [|n l IHl]; [discriminate|].
      intros other rest. cbn [map fold_right].
      destruct (fold_right sortInsert [] (map (pair converted) l)) as [|o r] eqn:Hl.
      - now intros [= <- _].
      - cbn [sortInsert]. rewrite (IHl o r eq_refl). cbn [fst].
        rewrite String_ltb_irrefl. now intros [= <- _]. }
    rewrite Hother. cbn [fst]. rewrite String_ltb_irrefl.
    cbn [map snd]. cbn [map] in IH. now rewrite IH.
Qed.

Lemma sort_plain (notes : list VaultNote) w :
  (forall note, In note notes -> note !! "toString" = None) ->
  sort notes w = (Ok notes, w).
Proof.
  intros Hplain. destruct notes as [|note [|note' notes]]; try reflexivity.
  unfold sort, bind. rewrite (traverse_sortKey_plain _ w Hplain).
  unfold ret. now rewrite sortInsert_equal_keys.
Qed.

(** A note with a field named [toString] stops the sort of two notes or
    more. *)
Lemma traverse_sortKey_toString (notes : list VaultNote) note w :
  In note notes -> is_Some (note !! "toString") ->
  traverse sortKey notes w
    = (Throw (TypeError "Cannot convert object to primitive value"), w).
Proof.
  intros Hin Hfield. induction notes as [|first notes IH]; [destruct Hin|].
  cbn [traverse]. unfold bind at 1. rewrite sortKey_run.
  destruct (first !! "toString") as [value|] eqn:Hfirst; [reflexivity|].
  destruct Hin as [-> | Hin].
  - rewrite Hfirst in Hfield. now destruct Hfield.
  - unfold bind. now rewrite (IH Hin).
Qed.

Lemma sort_toString_field (notes : list VaultNote) note w :
  In note notes -> is_Some (note !! "toString") -> 2 <= length notes ->
  sort notes w = (Throw (TypeError "Cannot convert object to primitive value"), w).
Proof.
  intros Hin Hfield Hlength.
  destruct notes as [|first [|second notes]]; [cbn in Hlength; lia | cbn in Hlength; lia |].
  unfold sort, bind. now rewrite (traverse_sortKey_toString _ note w Hin Hfield).
Qed.

Lemma filterM_titleMatches filter (notes : list VaultNote) w :
  (forall note, In note notes -> is_Some (note !! "title")) ->
  filterM (titleMatches filter) notes w =
    (Ok (List.filter
           (fun note => match note !! "title" with
                        | Some title => Js.includes (Js.toLowerCase title) filter
                        | None => false
                        end) notes), w).
Proof.
  intros Htitles. induction notes as [|note notes IH]; [reflexivity|].
  cbn [filterM List.filter]. unfold bind, titleMatches at 1.
  destruct (Htitles note) as [title Htitle]; [now left|]. rewrite Htitle.
  cbn. rewrite IH by (intros n Hn; apply Htitles; now right).
  now destruct (Js.includes _ _).
Qed.

(** C6. Of decrypted notes none of which has a field named [toString],
    [getNote] keeps, when a title filter is given, exactly those whose title
    contains the filter as a case-insensitive substring, in their order
    (the filter and the titles, which every note has, being ASCII text);
    without a filter it keeps them all. *)
Theorem getNote_title_filter (notes : list VaultNote) w :
  (forall note, In note notes -> note !! "toString" = None) ->
  (forall filter,
     Js.isAscii filter = true ->
     (forall note, In note notes ->
        exists title, note !! "title" = Some title /\ Js.isAscii title = true) ->
     exists keep : VaultNote -> bool,
       matchNotes (Some filter) (Some notes) w = (Ok (Some (List.filter keep notes)), w)
       /\ forall note, In note notes -> (keep note = true <-> titleContains filter note))
  /\ matchNotes None (Some notes) w = (Ok (Some notes), w).
Proof.
  intros Hplain. split.
  - intros filter _ Hascii.
    assert (Htitles : forall note, In note notes -> is_Some (note !! "title"))
      by (intros note Hnote; destruct (Hascii note Hnote) as (title & -> & _); eauto).
    unfold matchNotes, optionalCall, bind. cbn [Js.truthy_opt default].
    destruct (Js.truthy filter) eqn:Htruthy.
    + rewrite (filterM_titleMatches _ notes w Htitles). cbn.
      rewrite sort_plain by (intros note Hnote; apply List.filter_In in Hnote; now apply Hplain).
      eexists. split; [reflexivity|].
      intros note Hnote. cbn beta. destruct (Htitles note Hnote) as [title Htitle].
      rewrite Htitle, includes_spec. unfold titleContains. split.
      * intros (before & after & Hcontains). now exists title, before, after.
      * intros (title' & before & after & Htitle' & Hcontains).
        rewrite Htitle in Htitle'. injection Htitle' as <-. now exists before, after.
    + (* the empty filter is no filter, and every title contains it *)
      destruct filter; [|discriminate]. cbn. rewrite (sort_plain notes w Hplain).
      exists (fun _ => true). split.
      * rewrite forallb_filter_id; [reflexivity | now apply forallb_forall].
      * intros note Hnote. destruct (Htitles note Hnote) as [title Htitle].
        split; [|reflexivity]. intros _.
        now exists title, EmptyString, (Js.toLowerCase title).
  - unfold matchNotes, optionalCall, bind. cbn. now rewrite (sort_plain notes w Hplain).
Qed.

(** *** The selection *)

(** C5. Once the candidates are known, [getNote] throws
    [No note found] when there is none; prints the content of the only
    candidate, without asking, when there is one; and otherwise asks once,
    with all the candidates and the flag that tells whether a filter was
    given, and prints the content of the answer.  Nothing was asked before
    the candidates were known. *)
Theorem getNote_selection env params w beautifiedNotes w1 candidates w2 :
  getBeautifiedNotes params w = (Ok beautifiedNotes, w1) ->
  matchNotes (titleFilter params) beautifiedNotes w1 = (Ok candidates, w2) ->
  getNote env params w =
    match candidates with
    | None | Some [] => (Throw (Error "No note found"), w2)
    | Some [note] => (Ok tt, logged w2 [ConsoleLog (note !! "content")])
    | Some ((_ :: _ :: _) as matchedNotes) =>
        let hasFilters := Js.truthy_opt (titleFilter params) in
        let selectedNote := askSecureNoteChoice env matchedNotes hasFilters in
        (Ok tt, logged w2 [AskSecureNoteChoice matchedNotes hasFilters;
                           ConsoleLog (selectedNote !! "content")])
    end
  /\ exists evs, trace w2 = trace w ++ evs
                 /\ List.filter isAskSecureNoteChoice evs = []
                 /\ List.filter isConsoleLog evs = [].
Proof.
  intros Hbeautified Hmatched. split.
  - unfold getNote. unfold bind at 1. rewrite Hbeautified.
    unfold bind at 1. rewrite Hmatched.
    destruct w2 as [kc dev txs tr]. unfold logged.
    destruct candidates as [[|note [|note' notes]]|]; cbn;
      unfold emit; cbn; rewrite <- ?app_assoc; reflexivity.
  - pose proof (getBeautifiedNotes_world params w) as Hw1.
    pose proof (matchNotes_world (titleFilter params) beautifiedNotes w1) as Hw2.
    rewrite Hbeautified in Hw1. rewrite Hmatched in Hw2. cbn in Hw1, Hw2. subst w2 w1.
    eexists. split; [reflexivity|]. cbn. apply filter_isAsk_DecryptTransaction.
Qed.

End GetSecureNotesFacts.

(** ** More of the session-secret manager *)

Section KeychainManagerBehaviour.
Context `{Platform}.

(** *** The keychain *)

(** X1. A local key stored by [setLocalKey] is the one [getLocalKey] reads
    back for that login, unless the key is empty: an empty key is stored as
    the empty string, which [getLocalKey] takes for no key.  The entries of
    the other logins are read as before. *)
Theorem setLocalKey_then_getLocalKey env login key w :
  Base64Codec ->
  let w1 := (setLocalKey env login (Some key) w).2 in
  setLocalKey env login (Some key) w
    = (Ok key, mkWorld (<[(SERVICE, login) := toBase64 key]> (keychain w))
                       (device w) (transactions w)
                       (trace w ++ [KeychainSet SERVICE login (toBase64 key)]))
  /\ (getLocalKey login w1).1 = Ok (match key with [] => None | _ :: _ => Some key end)
  /\ forall other, other <> login -> (getLocalKey other w1).1 = (getLocalKey other w).1.
Proof.
  intros Hcodec. pose proof (toBase64_truthy key Hcodec) as Htruthy.
  destruct Hcodec as [Hround Hempty]. destruct w as [kc dev txs tr].
  cbv zeta. split; [reflexivity|]. split.
  - unfold_keychainManager. cbn. rewrite lookup_insert_eq. cbn.
    destruct key as [|x key].
    + now rewrite Hempty.
    + rewrite Htruthy by discriminate. cbn. now rewrite Hround.
  - intros other Hother. unfold_keychainManager. cbn.
    rewrite lookup_insert_ne by congruence.
    now destruct (Js.truthy_opt (kc !! (SERVICE, other))).
Qed.

(** *** Failures *)

(** X2. A call of [getSecrets] that fails on a decryption, on the
    registration or on the generation of the local key has written nothing:
    the keychain, the [device] table and the transactions are as before the
    call, on every path. *)
Theorem getSecrets_throw_writes_nothing env deviceKeys masterPassword w e :
  (getSecrets env deviceKeys masterPassword w).1 = Throw e ->
  isReadFailure e = true ->
  keychain (getSecrets env deviceKeys masterPassword w).2 = keychain w
  /\ device (getSecrets env deviceKeys masterPassword w).2 = device w
  /\ transactions (getSecrets env deviceKeys masterPassword w).2 = transactions w.
Proof.
  destruct w as [kc dev txs tr]. unfold_keychainManager. cbn.
  repeat branch; intros Hthrown _; try discriminate; repeat split.
Qed.

(** X3. When the registration fails, the first run stops with that error
    before a local key is generated or stored and before anything is
    encrypted or written: the world is as before but for the calls made. *)
Theorem first_run_registration_failure env masterPassword w reason :
  registerDevice env (typedLogin env) = inl reason ->
  let login := typedLogin env in
  let password := effectivePassword env masterPassword in
  getSecrets env None masterPassword w =
    (Throw (RegistrationFailed reason),
     logged w ([PromptLogin; KeychainGet SERVICE login]
               ++ (if Js.truthy_opt masterPassword then [] else [PromptMasterPassword])
               ++ [Derive password (getDerivationParametersForLocalKey login);
                   RegisterDevice login])).
Proof.
  intros Hfailed. destruct w as [kc dev txs tr].
  unfold logged, effectivePassword. unfold_keychainManager. cbn.
  destruct (Js.truthy_opt (kc !! (SERVICE, typedLogin env)));
    destruct (Js.truthy_opt masterPassword); cbn; rewrite Hfailed; cbn;
    rewrite <- ?app_assoc; reflexivity.
Qed.

(** X4. A recovery that fails because the password does not open
    [localKeyEncrypted] leaves the world such that a second call, with the
    right password, recovers the bundle. *)
Theorem failed_recovery_then_retry env env' masterPassword masterPassword' w secrets
    localKey reason :
  RoundTrip ->
  Hex.canonical (Secrets.secretKey secrets) = true ->
  Js.truthy_opt (keychain w !! (SERVICE, Secrets.login secrets)) = false ->
  let row := sealedRow secrets localKey in
  let parameters := getDerivationParametersForLocalKey (Secrets.login secrets) in
  decrypt (DeviceKeys.localKeyEncrypted row)
    (getDerivateUsingParametersFromEncryptedData (effectivePassword env masterPassword)
       parameters) = inl reason ->
  effectivePassword env' masterPassword' = Secrets.masterPassword secrets ->
  exists w1,
    getSecrets env (Some row) masterPassword w = (Throw (DecryptionFailed reason), w1)
    /\ keychain w1 = keychain w
    /\ device w1 = device w
    /\ exists w2, getSecrets env' (Some row) masterPassword' w1 = (Ok secrets, w2).
Proof.
  intros Hcipher Hhex Habsent row parameters Hwrong Hright.
  rewrite (getSecrets_recovery env row masterPassword w Habsent). cbv zeta.
  subst row parameters. cbn [sealedRow DeviceKeys.login DeviceKeys.localKeyEncrypted] in *.
  rewrite Hwrong. eexists. split; [reflexivity|]. do 2 (split; [reflexivity|]).
  erewrite getSecrets_recovery by exact Habsent. cbv zeta.
  cbn [sealedRow DeviceKeys.login DeviceKeys.accessKey DeviceKeys.localKeyEncrypted
         DeviceKeys.secretKeyEncrypted].
  rewrite Hright, !Hcipher, (Hex_toHex_fromHex _ Hhex).
  eexists. destruct secrets; reflexivity.
Qed.

(** *** The fast path *)

(** X5. On the fast path a supplied master password is returned as it
    is: it is not checked against [masterPasswordEncrypted], which is not
    decrypted at all; only [secretKeyEncrypted] has to decrypt. *)
Theorem fast_path_trusts_supplied_password env deviceKeys password w encoded bytes :
  keychain w !! (SERVICE, DeviceKeys.login deviceKeys) = Some encoded ->
  Js.truthy encoded = true ->
  Js.truthy password = true ->
  decrypt (DeviceKeys.secretKeyEncrypted deviceKeys) (fromBase64 encoded) = inr bytes ->
  getSecrets env (Some deviceKeys) (Some password) w =
    (Ok (Secrets.mk (DeviceKeys.login deviceKeys) password
           (DeviceKeys.accessKey deviceKeys) (Hex.toHex bytes)),
     logged w [KeychainGet SERVICE (DeviceKeys.login deviceKeys);
               Decrypt (DeviceKeys.secretKeyEncrypted deviceKeys) (fromBase64 encoded)]).
Proof.
  intros Hkey Htruthy Hpassword Hdecrypt.
  rewrite (getSecrets_fast_path env deviceKeys (Some password) w encoded Hkey Htruthy).
  cbv zeta. cbn [Js.truthy_opt default]. now rewrite Hpassword, Hdecrypt.
Qed.

(** X6. On the fast path, with the row that seals a bundle under the
    cached local key and no password supplied, [getSecrets] returns the
    login, master password and access key of the bundle, and as secret key
    the lower-case hexadecimal writing of the bytes read from the bundle's:
    the bundle itself exactly when its secret key is an even number of
    lower-case hexadecimal digits. *)
Theorem fast_path_returns_sealed_bundle env secrets localKey w encoded :
  RoundTrip ->
  keychain w !! (SERVICE, Secrets.login secrets) = Some encoded ->
  Js.truthy encoded = true ->
  fromBase64 encoded = localKey ->
  let row := sealedRow secrets localKey in
  let returned :=
    Secrets.mk (Secrets.login secrets) (Secrets.masterPassword secrets)
      (Secrets.accessKey secrets) (Hex.toHex (Hex.fromHex (Secrets.secretKey secrets))) in
  getSecrets env (Some row) None w =
    (Ok returned,
     logged w [KeychainGet SERVICE (Secrets.login secrets);
               Decrypt (DeviceKeys.masterPasswordEncrypted row) localKey;
               Decrypt (DeviceKeys.secretKeyEncrypted row) localKey])
  /\ (returned = secrets <-> Hex.canonical (Secrets.secretKey secrets) = true).
Proof.
  intros Hcipher Hkey Htruthy Hdecoded. cbv zeta. split.
  - now apply getSecrets_fast_path_sealed with (encoded := encoded).
  - rewrite Hex_canonical_iff. destruct secrets as [login password accessKey secretKey].
    cbn. split; [now intros [= ->] | now intros ->].
Qed.

(** X7. With the tamper law of the cipher, a local key in the keychain
    that is not the one the row was sealed under makes [getSecrets] fail
    with a decryption error; it does not fall back on the master password:
    nothing is prompted for and nothing derived. *)
Theorem stale_keychain_key_is_fatal env secrets localKey masterPassword w encoded :
  WrongKey ->
  keychain w !! (SERVICE, Secrets.login secrets) = Some encoded ->
  Js.truthy encoded = true ->
  fromBase64 encoded <> localKey ->
  exists reason evs,
    getSecrets env (Some (sealedRow secrets localKey)) masterPassword w
      = (Throw (DecryptionFailed reason), logged w evs)
    /\ List.filter isPromptMasterPassword evs = []
    /\ List.filter isDerive evs = [].
Proof.
  intros Hwrong Hkey Htruthy Hstale.
  erewrite getSecrets_fast_path by (cbn [sealedRow DeviceKeys.login]; eassumption).
  cbv zeta.
  cbn [sealedRow DeviceKeys.login DeviceKeys.accessKey DeviceKeys.masterPasswordEncrypted
         DeviceKeys.secretKeyEncrypted].
  destruct (Hwrong localKey (fromBase64 encoded)
              (Js.bufferFromString (Secrets.masterPassword secrets)) Hstale) as [r1 Hr1].
  destruct (Hwrong localKey (fromBase64 encoded)
              (Hex.fromHex (Secrets.secretKey secrets)) Hstale) as [r2 Hr2].
  rewrite Hr1, Hr2.
  destruct (Js.truthy_opt masterPassword); eexists _, _; repeat split.
Qed.

(** *** The first run *)

(** X8. A first run for a login whose local key is in the keychain
    seals the row under that key: it asks for no random bytes and does not
    write to the keychain, which is left as it was. *)
Theorem first_run_keeps_cached_key env masterPassword w encoded registration :
  keychain w !! (SERVICE, typedLogin env) = Some encoded ->
  Js.truthy encoded = true ->
  registerDevice env (typedLogin env) = inr registration ->
  exists s evs,
    getSecrets env None masterPassword w
      = (Ok s, mkWorld (keychain w)
                       (replaceInto (sealedRow s (fromBase64 encoded)) (device w))
                       (transactions w) (trace w ++ evs))
    /\ List.filter isKeyStoreCall evs = [].
Proof.
  intros Hkey Htruthy Hregistration.
  rewrite (getSecrets_first_run env masterPassword w registration Hregistration).
  cbv zeta. rewrite Hkey. cbn [Js.truthy_opt default]. rewrite Htruthy.
  eexists _, _. split; [reflexivity|].
  now destruct (Js.truthy_opt masterPassword).
Qed.

(** *** What a call leaves alone *)

(** X9. A call of [getSecrets] touches the keychain entry and the device
    rows of its own login only: every other entry of the keychain and the
    rows of every other login are as before, on every path. *)
Theorem getSecrets_other_logins_untouched env deviceKeys masterPassword w :
  let w' := (getSecrets env deviceKeys masterPassword w).2 in
  (forall service account,
     (service, account) <> (SERVICE, loginOf env deviceKeys) ->
     keychain w' !! (service, account) = keychain w !! (service, account))
  /\ (forall other,
        other <> loginOf env deviceKeys ->
        rowsFor other (device w') = rowsFor other (device w)).
Proof.
  destruct w as [kc dev txs tr]. unfold loginOf. unfold_keychainManager. cbn.
  repeat branch; split; intros; cbn;
    try reflexivity;
    try (rewrite lookup_insert_ne by congruence; reflexivity);
    match goal with
    | Hother : ?other <> _ |- List.filter _ (List.filter _ ?table ++ [?row]) = _ =>
        change (rowsFor other (replaceInto row table) = rowsFor other table);
        rewrite rowsFor_replaceInto; cbn [DeviceKeys.login];
        destruct (String.eqb _ other) eqn:Heq;
        [apply String.eqb_eq in Heq; congruence | reflexivity]
    end.
Qed.

(** X10. With a device row, [getSecrets] makes none of the calls of the
    first-run setup, whichever of the two paths it takes and whether it
    returns or throws: no random bytes, no registration, no encryption, no
    write to the [device] table, which is left as it was. *)
Theorem getSecrets_with_row_sets_nothing_up env deviceKeys masterPassword w :
  let w' := (getSecrets env (Some deviceKeys) masterPassword w).2 in
  device w' = device w
  /\ exists evs, trace w' = trace w ++ evs /\ List.filter isSetupCall evs = [].
Proof.
  destruct w as [kc dev txs tr]. unfold_keychainManager. cbn.
  repeat branch; (split; [reflexivity|]); rewrite <- ?app_assoc;
    eexists; (split; [reflexivity|]); reflexivity.
Qed.

(** X11. [getSecrets] asks for the login exactly when it is given no
    device row, asks for the master password at most once, and does not ask
    for it when a non-empty one is supplied, on every path. *)
Theorem getSecrets_prompts env deviceKeys masterPassword w :
  exists evs,
    trace (getSecrets env deviceKeys masterPassword w).2 = trace w ++ evs
    /\ List.filter isPromptLogin evs
       = match deviceKeys with Some _ => [] | None => [PromptLogin] end
    /\ length (List.filter isPromptMasterPassword evs) <= 1
    /\ (Js.truthy_opt masterPassword = true -> List.filter isPromptMasterPassword evs = []).
Proof.
  destruct w as [kc dev txs tr]. unfold_keychainManager. cbn.
  repeat branch; rewrite <- ?app_assoc; eexists; (split; [reflexivity|]);
    cbn; repeat split; auto; try discriminate.
Qed.

(** X12. The empty string as master password is no master password:
    [getSecrets] behaves as when none is supplied. *)
Theorem getSecrets_empty_password env deviceKeys w :
  getSecrets env deviceKeys (Some EmptyString) w = getSecrets env deviceKeys None w.
Proof. destruct deviceKeys; reflexivity. Qed.

(** *** Calls one after the other *)

(** X21. A fast-path call can be repeated: it leaves the world such that
    the same call, whatever the outside world answers then, returns or
    throws the same. *)
Theorem fast_path_is_repeatable env env' deviceKeys masterPassword w encoded :
  keychain w !! (SERVICE, DeviceKeys.login deviceKeys) = Some encoded ->
  Js.truthy encoded = true ->
  (getSecrets env' (Some deviceKeys) masterPassword
     (getSecrets env (Some deviceKeys) masterPassword w).2).1
    = (getSecrets env (Some deviceKeys) masterPassword w).1.
Proof.
  intros Hkey Htruthy.
  assert (Hagain : forall evs,
             (getSecrets env' (Some deviceKeys) masterPassword (logged w evs)).1
             = (getSecrets env (Some deviceKeys) masterPassword w).1).
  { intros evs.
    rewrite (getSecrets_fast_path env' deviceKeys masterPassword (logged w evs) encoded),
            (getSecrets_fast_path env deviceKeys masterPassword w encoded)
      by assumption.
    cbv zeta.
    destruct (Js.truthy_opt masterPassword);
      [| destruct (decrypt (DeviceKeys.masterPasswordEncrypted deviceKeys) _) ];
      try destruct (decrypt (DeviceKeys.secretKeyEncrypted deviceKeys) _); reflexivity. }
  rewrite (getSecrets_fast_path env deviceKeys masterPassword w encoded Hkey Htruthy) at 1.
  cbv zeta.
  destruct (Js.truthy_opt masterPassword);
    [| destruct (decrypt (DeviceKeys.masterPasswordEncrypted deviceKeys) _) ];
    try destruct (decrypt (DeviceKeys.secretKeyEncrypted deviceKeys) _);
    cbn [snd]; apply Hagain.
Qed.

(** X22. A first run that generates the local key, the loss of the
    keychain entry, and a call with the row of the first run and the same
    password: the second call returns the login, master password and access
    key of the first, and as secret key the lower-case hexadecimal writing
    of the bytes that the first one's decodes to (the bundle of the first
    run exactly when its secret key is an even number of lower-case
    hexadecimal digits), and it puts the generated key back in the
    keychain. *)
Theorem first_run_then_recovery env env' masterPassword masterPassword' w registration key :
  RoundTrip ->
  Js.truthy_opt (keychain w !! (SERVICE, typedLogin env)) = false ->
  registerDevice env (typedLogin env) = inr registration ->
  randomBytes env 32 = Some key ->
  effectivePassword env' masterPassword' = effectivePassword env masterPassword ->
  exists secrets w1 row,
    getSecrets env None masterPassword w = (Ok secrets, w1)
    /\ Secrets.secretKey secrets = Registration.deviceSecretKey registration
    /\ rowsFor (typedLogin env) (device w1) = [row]
    /\ keychain w1 !! (SERVICE, typedLogin env) = Some (toBase64 key)
    /\ exists secrets' w2,
         getSecrets env' (Some row) masterPassword'
           (mkWorld (delete (SERVICE, typedLogin env) (keychain w1))
                    (device w1) (transactions w1) (trace w1))
           = (Ok secrets', w2)
         /\ secrets' = Secrets.mk (Secrets.login secrets) (Secrets.masterPassword secrets)
                         (Secrets.accessKey secrets)
                         (Hex.toHex (Hex.fromHex (Secrets.secretKey secrets)))
         /\ (secrets' = secrets <-> Hex.canonical (Secrets.secretKey secrets) = true)
         /\ keychain w2 !! (SERVICE, typedLogin env) = Some (toBase64 key).
Proof.
  intros Hcipher Habsent Hregistration Hrandom Hpassword.
  rewrite (getSecrets_first_run env masterPassword w registration Hregistration).
  cbv zeta. rewrite Habsent, Hrandom.
  eexists _, _, _. split; [reflexivity|]. cbn [keychain device transactions trace].
  split; [reflexivity|]. split; [| split].
  - rewrite rowsFor_replaceInto. cbn [sealedRow DeviceKeys.login Secrets.login].
    now rewrite String.eqb_refl.
  - apply lookup_insert_eq.
  - erewrite getSecrets_recovery
      by (cbn [keychain sealedRow DeviceKeys.login Secrets.login];
          now rewrite lookup_delete_eq).
    cbv zeta.
    cbn [sealedRow DeviceKeys.login DeviceKeys.accessKey DeviceKeys.localKeyEncrypted
           DeviceKeys.secretKeyEncrypted Secrets.login Secrets.accessKey
           Secrets.masterPassword Secrets.secretKey].
    rewrite Hpassword, !Hcipher.
    eexists _, _. split; [reflexivity|]. split; [reflexivity|]. split.
    + rewrite Hex_canonical_iff. split; [now intros [= ->] | now intros ->].
    + cbn [keychain]. apply lookup_insert_eq.
Qed.

End KeychainManagerBehaviour.

(** ** More of the secure-note retriever *)

Section GetSecureNotesBehaviour.
Context `{Platform}.

Lemma promiseAll_values {A} failed (values : list A) w :
  promiseAll failed (map inr values) w = (Ok values, w).
Proof.
  induction values as [|a values IH]; cbn; [reflexivity|].
  unfold bind. now rewrite IH.
Qed.

Lemma filter_isDecryptTransaction (batch : list Transaction.t) :
  List.filter isDecryptTransaction (map DecryptTransaction batch)
    = map DecryptTransaction batch.
Proof. induction batch as [|t batch IH]; cbn; [reflexivity | now rewrite IH]. Qed.

(** *** Decryption of the batch *)

(** X13. [decryptSecureNotesTransactions] starts the decryption of every
    transaction of type [SECURENOTE], in order, and of no other; it never
    returns [null]: it throws, or returns the decrypted notes, which are
    those of the batch in order when each of them decrypts. *)
Theorem decryptSecureNotesTransactions_outcome transactions secrets w :
  let batch :=
    List.filter (fun t => String.eqb (Transaction.type t) "SECURENOTE") transactions in
  (decryptSecureNotesTransactions transactions secrets w).2
    = logged w (map DecryptTransaction batch)
  /\ (decryptSecureNotesTransactions transactions secrets w).1 <> Ok None
  /\ (forall items,
        map (fun t => decryptTransaction t secrets) batch = map inr items ->
        (decryptSecureNotesTransactions transactions secrets w).1 = Ok (Some items)).
Proof.
  cbv zeta.
  set (batch := List.filter _ transactions).
  assert (Hrun : decryptSecureNotesTransactions transactions secrets w =
                 match promiseAll TransactionDecryptionFailed
                         (map (fun t => decryptTransaction t secrets) batch)
                         (logged w (map DecryptTransaction batch)) with
                 | (Ok values, w1) => (Ok (Some values), w1)
                 | (Throw e, w1) => (Throw e, w1)
                 end).
  { unfold decryptSecureNotesTransactions. unfold bind at 1.
    fold batch. rewrite traverse_do_decryptTransaction. reflexivity. }
  rewrite Hrun. clear Hrun.
  pose proof (promiseAll_world TransactionDecryptionFailed
                (map (fun t => decryptTransaction t secrets) batch)
                (logged w (map DecryptTransaction batch))) as Hworld.
  destruct (promiseAll _ _ _) as [[values|e] w1] eqn:Hall; cbn in Hworld; subst w1; cbn.
  - split; [reflexivity|]. split; [discriminate|].
    intros items Hitems. rewrite Hitems, promiseAll_values in Hall. congruence.
  - split; [reflexivity|]. split; [discriminate|].
    intros items Hitems. rewrite Hitems, promiseAll_values in Hall. congruence.
Qed.

(** *** The reshaping *)

Lemma traverse_beautify (items : list SecureNote.t) w :
  (forall item entry,
     In item items ->
     In entry (SecureNote.KWDataItem (SecureNote.KWSecureNote (SecureNote.root item))) ->
     SecureNote.key (SecureNote._attributes entry) <> EmptyString) ->
  traverse beautify items w = (Ok (map vaultNoteOf items), w).
Proof.
  intros Hkeys. induction items as [|item items IH]; [reflexivity|].
  cbn [traverse map]. unfold bind at 1. unfold beautify at 1. unfold bind at 1.
  rewrite traverse_beautifyEntry by (intros entry; apply Hkeys; now left).
  unfold ret at 1. unfold bind.
  rewrite IH by (intros i e Hi; apply Hkeys; now right). reflexivity.
Qed.

(** X14. A decrypted note with an attribute entry whose key is empty
    cannot be reshaped: [key[0]] is [undefined], and the reshaping throws a
    [TypeError], wherever the entry stands among the others. *)
Theorem beautify_empty_key item w entry :
  In entry (SecureNote.KWDataItem (SecureNote.KWSecureNote (SecureNote.root item))) ->
  SecureNote.key (SecureNote._attributes entry) = EmptyString ->
  exists message, beautify item w = (Throw (TypeError message), w).
Proof.
  intros Hin Hempty. unfold beautify, bind.
  assert (Hthrow : exists message,
             traverse beautifyEntry
               (SecureNote.KWDataItem (SecureNote.KWSecureNote (SecureNote.root item))) w
             = (Throw (TypeError message), w)).
  { induction (SecureNote.KWDataItem (SecureNote.KWSecureNote (SecureNote.root item)))
      as [|first entries IH]; [destruct Hin|].
    cbn [traverse]. unfold bind.
    destruct (SecureNote.key (SecureNote._attributes first)) as [|c rest] eqn:Hfirst.
    - unfold beautifyEntry. rewrite Hfirst. eexists. reflexivity.
    - rewrite beautifyEntry_fieldName by (rewrite Hfirst; discriminate).
      destruct Hin as [-> | Hin]; [congruence|].
      destruct (IH Hin) as [message ->]. eexists. reflexivity. }
  destruct Hthrow as [message ->]. eexists. reflexivity.
Qed.

(** *** The title filter *)

(** X15. With a non-empty title filter, a note that has no [title] field
    makes the filter throw a [TypeError] ([item.title] is [undefined]);
    without a filter the notes are kept, titled or not, when none of them
    has a field named [toString]. *)
Theorem title_filter_needs_titles filter (notes : list VaultNote) note w :
  Js.truthy filter = true ->
  In note notes ->
  note !! "title" = None ->
  (exists message,
     matchNotes (Some filter) (Some notes) w = (Throw (TypeError message), w))
  /\ ((forall other, In other notes -> other !! "toString" = None) ->
      matchNotes None (Some notes) w = (Ok (Some notes), w)).
Proof.
  intros Htruthy Hin Hnone. split.
  - unfold matchNotes, optionalCall. cbn [Js.truthy_opt default]. rewrite Htruthy.
    assert (Hthrow : exists message,
               filterM (titleMatches (Js.toLowerCase filter)) notes w
               = (Throw (TypeError message), w)).
    { induction notes as [|first notes IH]; [destruct Hin|].
      cbn [filterM]. unfold bind.
      destruct (first !! "title") as [title|] eqn:Hfirst.
      - unfold titleMatches at 1. rewrite Hfirst. unfold ret at 1. cbv beta iota.
        destruct Hin as [-> | Hin]; [congruence|].
        destruct (IH Hin) as [message ->]. eexists. reflexivity.
      - unfold titleMatches at 1. rewrite Hfirst. eexists. reflexivity. }
    destruct Hthrow as [message Hthrow]. exists message.
    unfold bind, id. cbv beta iota zeta. now rewrite Hthrow.
  - intros Hplain. unfold matchNotes, optionalCall, bind. cbn.
    now rewrite (sort_plain notes w Hplain).
Qed.

(** *** The sort of the candidates *)

(** The sort of notes: it throws when there are two notes or more and one
    has a field named [toString], and moves nothing otherwise. *)
Lemma sort_run (notes : list VaultNote) w :
  sort notes w =
    if (2 <=? length notes)%nat && negb (forallb isPlain notes)
    then (Throw (TypeError "Cannot convert object to primitive value"), w)
    else (Ok notes, w).
Proof.
  destruct (forallb isPlain notes) eqn:Hplain.
  - rewrite andb_false_r. apply sort_plain. intros note Hnote.
    rewrite forallb_forall in Hplain. specialize (Hplain note Hnote).
    unfold isPlain in Hplain. now destruct (note !! "toString").
  - rewrite andb_true_r.
    destruct (2 <=? length notes)%nat eqn:Hlength.
    + apply Nat.leb_le in Hlength.
      assert (Hsome : exists note, In note notes /\ isPlain note = false).
      { clear Hlength. induction notes as [|first notes IH]; [discriminate|].
        cbn [forallb] in Hplain. apply andb_false_iff in Hplain as [Hfirst | Hrest].
        - exists first. split; [now left | exact Hfirst].
        - destruct (IH Hrest) as (note & Hnote & Hfield). exists note. split; [now right | exact Hfield]. }
      destruct Hsome as (note & Hnote & Hfield).
      apply (sort_toString_field notes note w Hnote); [|exact Hlength].
      unfold isPlain in Hfield. destruct (note !! "toString"); [eauto | discriminate].
    + destruct notes as [|first [|second notes]]; [reflexivity | reflexivity | discriminate].
Qed.

(** The second part of [getNote] on notes that have a title when a filter
    is given: the sort of the notes that pass the filter. *)
Lemma matchNotes_run titleFilter (notes : list VaultNote) w :
  (Js.truthy_opt titleFilter = true ->
   forall note, In note notes -> is_Some (note !! "title")) ->
  matchNotes titleFilter (Some notes) w =
    match sort (matching titleFilter notes) w with
    | (Ok sorted, w') => (Ok (Some sorted), w')
    | (Throw e, w') => (Throw e, w')
    end.
Proof.
  intros Htitles. unfold matchNotes, matching, optionalCall. unfold bind at 1.
  destruct (Js.truthy_opt titleFilter) eqn:Htruthy.
  - cbv zeta. unfold bind at 1. rewrite filterM_titleMatches by now apply Htitles.
    unfold ret at 1. unfold bind. reflexivity.
  - unfold ret at 1. unfold bind. reflexivity.
Qed.

(** X23. The candidates are sorted with the default comparator, which
    converts every one of two candidates or more to a string.  When one of
    them has a field named [toString], the conversion and with it
    [matchedNotes.sort()] throws a [TypeError]; with fewer than two
    candidates, or when no candidate has such a field, the candidates are
    left as they are, in their order.  With a filter, the filter and the
    titles, which every note has, are ASCII text. *)
Theorem sort_needs_plain_notes titleFilter (notes : list VaultNote) w :
  (Js.truthy_opt titleFilter = true ->
   Js.isAscii (default "" titleFilter) = true
   /\ forall note, In note notes ->
        exists title, note !! "title" = Some title /\ Js.isAscii title = true) ->
  let candidates := matching titleFilter notes in
  matchNotes titleFilter (Some notes) w =
    if (2 <=? length candidates)%nat && negb (forallb isPlain candidates)
    then (Throw (TypeError "Cannot convert object to primitive value"), w)
    else (Ok (Some candidates), w).
Proof.
  intros Hascii. cbv zeta. rewrite matchNotes_run.
  - rewrite sort_run. now destruct (_ && _).
  - intros Htruthy note Hnote.
    destruct (proj2 (Hascii Htruthy) note Hnote) as (title & -> & _). eauto.
Qed.

(** *** The whole of [getNote] *)

Lemma logged_logged (w : World) (evs evs' : list Event) :
  logged (logged w evs) evs' = logged w (evs ++ evs').
Proof. unfold logged. cbn. now rewrite app_assoc. Qed.

(** The calls of [getNote]: the retrieval, then nothing when it throws,
    and the output, after the question if it is asked, when it returns. *)
Lemma getNote_shape env params w :
  exists tail,
    (getNote env params w).2 = logged w (retrieval params w ++ tail)
    /\ match (getNote env params w).1 with
       | Ok _ =>
           (exists line, tail = [ConsoleLog line])
           \/ (exists notes flag line,
                 tail = [AskSecureNoteChoice notes flag; ConsoleLog line])
       | Throw _ => tail = []
       end.
Proof.
  destruct (getNote env params w) as [out w'] eqn:Hrun. cbn [fst snd].
  unfold getNote in Hrun. unfold bind at 1 in Hrun.
  pose proof (getBeautifiedNotes_world params w) as Hw1. fold (retrieval params w) in Hw1.
  destruct (getBeautifiedNotes params w) as [[beautified|e] w1]; cbn in Hw1; subst w1.
  2: { injection Hrun as <- <-. exists []. now rewrite app_nil_r. }
  unfold bind at 1 in Hrun.
  pose proof (matchNotes_world (titleFilter params) beautified
                (logged w (retrieval params w))) as Hw2.
  destruct (matchNotes _ _ _) as [[candidates|e] w2]; cbn in Hw2; subst w2.
  2: { injection Hrun as <- <-. exists []. now rewrite app_nil_r. }
  destruct candidates as [[|note [|note' notes]]|];
    unfold bind, selectNote, emit, ret, throw, logged in Hrun; cbn in Hrun;
    rewrite <- ?app_assoc in Hrun; injection Hrun as <- <-.
  - exists []. now rewrite app_nil_r.
  - eexists. split; [reflexivity|]. eauto.
  - eexists. split; [reflexivity|]. eauto 6.
  - exists []. now rewrite app_nil_r.
Qed.

Lemma filter_retrieval params w :
  List.filter isDecryptTransaction (retrieval params w)
    = map DecryptTransaction (secureNoteBatch (secrets params) w)
  /\ List.filter isConsoleLog (retrieval params w) = []
  /\ List.filter isAskSecureNoteChoice (retrieval params w) = [].
Proof.
  unfold retrieval. cbn. rewrite filter_isDecryptTransaction.
  repeat split; apply filter_isAsk_DecryptTransaction.
Qed.

(** X16. [getNote] only reads: whatever it returns or throws, the
    keychain and the two tables are as before, and the notes it decrypts are
    the transactions of the login with action [BACKUP_EDIT] and type
    [SECURENOTE], each once, in the order of the table. *)
Theorem getNote_reads_only env params w :
  let w' := (getNote env params w).2 in
  keychain w' = keychain w
  /\ device w' = device w
  /\ transactions w' = transactions w
  /\ exists evs,
       trace w' = trace w ++ evs
       /\ List.filter isDecryptTransaction evs
          = map DecryptTransaction (secureNoteBatch (secrets params) w).
Proof.
  cbv zeta. destruct (getNote_shape env params w) as (tail & -> & Htail).
  do 3 (split; [reflexivity|]). eexists. split; [reflexivity|].
  rewrite List.filter_app. destruct (filter_retrieval params w) as (-> & _).
  destruct (getNote env params w).1.
  - destruct Htail as [[line ->] | (notes & flag & line & ->)]; cbn; apply app_nil_r.
  - subst tail. apply app_nil_r.
Qed.

(** X17. [getNote] prints one line, the content of the selected note,
    exactly when it returns, and nothing when it throws; it asks the user to
    choose at most once. *)
Theorem getNote_prints_once env params w :
  exists evs,
    (getNote env params w).2 = logged w evs
    /\ length (List.filter isAskSecureNoteChoice evs) <= 1
    /\ match (getNote env params w).1 with
       | Ok _ => exists line, List.filter isConsoleLog evs = [ConsoleLog line]
       | Throw _ => List.filter isConsoleLog evs = []
       end.
Proof.
  destruct (getNote_shape env params w) as (tail & -> & Htail).
  eexists. split; [reflexivity|].
  rewrite !List.filter_app. destruct (filter_retrieval params w) as (_ & -> & ->).
  destruct (getNote env params w).1.
  - destruct Htail as [[line ->] | (notes & flag & line & ->)]; cbn; eauto.
  - subst tail. cbn. auto.
Qed.

(** X18. The empty string as title filter is no filter: [getNote]
    behaves as when none is given. *)
Theorem getNote_empty_filter env secrets w :
  getNote env (mkGetSecureNote (Some EmptyString) secrets) w
    = getNote env (mkGetSecureNote None secrets) w.
Proof. reflexivity. Qed.

(** When every note of the batch decrypts and no attribute key is empty,
    the first part of [getNote] gives the reshaped notes, in order. *)
Lemma getBeautifiedNotes_decrypted params w items :
  map (fun t => decryptTransaction t (secrets params)) (secureNoteBatch (secrets params) w)
    = map inr items ->
  (forall item entry,
     In item items ->
     In entry (SecureNote.KWDataItem (SecureNote.KWSecureNote (SecureNote.root item))) ->
     SecureNote.key (SecureNote._attributes entry) <> EmptyString) ->
  getBeautifiedNotes params w
    = (Ok (Some (map vaultNoteOf items)), logged w (retrieval params w)).
Proof.
  intros Hdecrypted Hkeys. destruct w as [kc dev txs tr].
  unfold getBeautifiedNotes, decryptSecureNotesTransactions, db_selectTransactions.
  unfold bind at 1. unfold emit at 1. unfold bind at 1. unfold bind at 1.
  unfold emit at 1. cbn. unfold bind at 1. unfold bind at 1.
  rewrite traverse_do_decryptTransaction.
  unfold secureNoteBatch in Hdecrypted. cbn in Hdecrypted.
  unfold bind at 1. rewrite Hdecrypted, promiseAll_values.
  unfold ret at 1. unfold optionalCall, bind. rewrite traverse_beautify by exact Hkeys.
  unfold logged, retrieval, secureNoteBatch, ret. cbn. now rewrite <- !app_assoc.
Qed.

(** The second part of [getNote] on reshaped notes that have a title when
    a filter is given, and no field named [toString]. *)
Lemma matchNotes_candidates titleFilter items w :
  (Js.truthy_opt titleFilter = true ->
   forall item, In item items -> is_Some (vaultNoteOf item !! "title")) ->
  (forall item, In item items -> vaultNoteOf item !! "toString" = None) ->
  matchNotes titleFilter (Some (map vaultNoteOf items)) w
    = (Ok (Some (candidatesOf titleFilter items)), w).
Proof.
  intros Htitles Hplain. rewrite matchNotes_run.
  - change (matching titleFilter (map vaultNoteOf items)) with (candidatesOf titleFilter items).
    rewrite sort_plain; [reflexivity|].
    intros note Hnote. unfold candidatesOf in Hnote.
    assert (Hitem : In note (map vaultNoteOf items)).
    { destruct (Js.truthy_opt titleFilter); [|exact Hnote].
      now apply List.filter_In in Hnote. }
    apply in_map_iff in Hitem as (item & <- & Hitem). now apply Hplain.
  - intros Htruthy note Hnote. apply in_map_iff in Hnote as (item & <- & Hitem).
    now apply Htitles.
Qed.

(** X19. When the login has no secure note, [getNote] throws
    [No note found] after the query alone: nothing is decrypted, asked or
    printed. *)
Theorem getNote_empty_vault env params w :
  secureNoteBatch (secrets params) w = [] ->
  getNote env params w =
    (Throw (Error "No note found"),
     logged w [WinstonDebug ("Retrieving: " +:+
                 (if Js.truthy_opt (titleFilter params)
                  then default "" (titleFilter params) else ""));
               TransactionsSelect (Secrets.login (secrets params))]).
Proof.
  intros Hempty.
  assert (Hbeautified : getBeautifiedNotes params w
                        = (Ok (Some (map vaultNoteOf [])), logged w (retrieval params w)))
    by (apply getBeautifiedNotes_decrypted; [now rewrite Hempty | intros item entry []]).
  unfold getNote. unfold bind at 1. rewrite Hbeautified.
  unfold bind at 1.
  rewrite matchNotes_candidates by first [intros _ item [] | intros item []].
  unfold retrieval. rewrite Hempty. unfold candidatesOf.
  now destruct (Js.truthy_opt (titleFilter params)).
Qed.

(** X20. From the table to the output: when every secure note of the
    login decrypts, the attribute keys are not empty and are ASCII text, no
    reshaped note has a field named [toString] and, if a filter is given,
    the filter and the titles, which every note has, are ASCII text,
    [getNote] selects among the reshaped notes that pass the filter, in the
    order of the table: it throws when there is none, prints the only one,
    or asks and prints the answer. *)
Theorem getNote_end_to_end env params w items :
  map (fun t => decryptTransaction t (secrets params)) (secureNoteBatch (secrets params) w)
    = map inr items ->
  (forall item entry,
     In item items ->
     In entry (SecureNote.KWDataItem (SecureNote.KWSecureNote (SecureNote.root item))) ->
     SecureNote.key (SecureNote._attributes entry) <> EmptyString
     /\ Js.isAscii (SecureNote.key (SecureNote._attributes entry)) = true) ->
  (forall item, In item items -> vaultNoteOf item !! "toString" = None) ->
  (Js.truthy_opt (titleFilter params) = true ->
   Js.isAscii (default "" (titleFilter params)) = true
   /\ forall item, In item items ->
        exists title, vaultNoteOf item !! "title" = Some title /\ Js.isAscii title = true) ->
  let w1 := logged w (retrieval params w) in
  getNote env params w =
    match candidatesOf (titleFilter params) items with
    | [] => (Throw (Error "No note found"), w1)
    | [note] => (Ok tt, logged w1 [ConsoleLog (note !! "content")])
    | (_ :: _ :: _) as matchedNotes =>
        let hasFilters := Js.truthy_opt (titleFilter params) in
        let selectedNote := askSecureNoteChoice env matchedNotes hasFilters in
        (Ok tt, logged w1 [AskSecureNoteChoice matchedNotes hasFilters;
                           ConsoleLog (selectedNote !! "content")])
    end.
Proof.
  intros Hdecrypted Hkeys Hplain Hascii. cbv zeta.
  assert (Htitles : Js.truthy_opt (titleFilter params) = true ->
                    forall item, In item items -> is_Some (vaultNoteOf item !! "title")).
  { intros Htruthy item Hitem.
    destruct (proj2 (Hascii Htruthy) item Hitem) as (title & -> & _). eauto. }
  unfold getNote. unfold bind at 1.
  rewrite (getBeautifiedNotes_decrypted params w items Hdecrypted
             (fun item entry Hitem Hentry => proj1 (Hkeys item entry Hitem Hentry))).
  unfold bind at 1. rewrite (matchNotes_candidates _ items _ Htitles Hplain).
  destruct (candidatesOf (titleFilter params) items) as [|note [|note' notes]];
    unfold bind, selectNote, emit, ret, throw, logged; cbn;
    rewrite <- ?app_assoc; reflexivity.
Qed.

End GetSecureNotesBehaviour.

(** ** The properties on the executable platform *)

#[local] Existing Instance Double.platform.

Lemma Double_bufferEqb_refl (b : Buffer) : Double.bufferEqb b b = true.
Proof.
  induction b as [|x b IH]; [reflexivity|]. cbn. rewrite IH.
  now destruct x.
Qed.

Lemma Double_RoundTrip : RoundTrip.
Proof. intros key content. cbn. now rewrite Double_bufferEqb_refl. Qed.

Lemma Double_Base64Codec : Base64Codec.
Proof. split; [apply Base64_decode_encode | reflexivity]. Qed.

(** C1 on the reference platform: a first run in an empty world, then a
    call with the stored row; the registration issues a secret key in
    lower-case digits, which the later call returns as it was. *)
Lemma first_run_then_fast_path_keys_witness :
  exists secrets w1 row secrets' w2,
    getSecrets Double.env None (Some "hunter2") Double.emptyWorld = (Ok secrets, w1)
    /\ device w1 = [row]
    /\ getSecrets Double.env (Some row) None w1 = (Ok secrets', w2)
    /\ Secrets.accessKey secrets' = Secrets.accessKey secrets
    /\ Secrets.secretKey secrets' = Secrets.secretKey secrets.
Proof.
  destruct (first_run_then_fast_path_keys Double.env Double.env (Some "hunter2")
              Double.emptyWorld (Registration.mk "a1b2c3" "00ff10aa") Double.key32
              Double_RoundTrip Double_Base64Codec eq_refl eq_refl eq_refl eq_refl)
    as (secrets & w1 & row & Hrun & _ & _ & Hissued & _ & Hdevice & _
        & secrets' & w2 & Hrun' & Haccess & _ & Hsame).
  exists secrets, w1, row, secrets', w2. repeat split; try assumption.
  apply Hsame. rewrite Hissued. reflexivity.
Defined.

(** C1 as the specification has it fails: the registration issues the
    secret key [00FFAB]; the first run returns it as issued, and the later
    call with the stored row returns [00ffab]. *)
Lemma first_run_then_fast_path_recases_key :
  let first := getSecrets Scenario.upperCaseEnv None (Some "hunter2") Double.emptyWorld in
  rowsFor (typedLogin Scenario.upperCaseEnv) (device Double.emptyWorld) = []
  /\ exists secrets row secrets' w2,
       first.1 = Ok secrets
       /\ rowsFor (typedLogin Scenario.upperCaseEnv) (device first.2) = [row]
       /\ getSecrets Scenario.upperCaseEnv (Some row) None first.2 = (Ok secrets', w2)
       /\ Secrets.secretKey secrets = "00FFAB"
       /\ Secrets.secretKey secrets' = "00ffab"
       /\ Secrets.secretKey secrets' <> Secrets.secretKey secrets.
Proof.
  cbv zeta. split; [reflexivity|].
  pose (issued := Secrets.mk "alice@example.com" "hunter2" "a1b2c3" "00FFAB").
  exists issued, (sealedRow issued Double.key32). eexists _, _.
  split; [reflexivity|]. split; [reflexivity|]. split.
  - apply (getSecrets_fast_path_sealed Scenario.upperCaseEnv issued Double.key32 _
             (Base64.encode Double.key32) Double_RoundTrip);
      [reflexivity | reflexivity | apply Base64_decode_encode].
  - split; [reflexivity|]. split; [reflexivity|]. discriminate.
Qed.

(** C2 on the reference platform: the keychain was emptied after the first
    run. *)
Lemma recovery_restores_fast_path_witness :
  exists w1,
    getSecrets Double.env (Some (sealedRow Double.secrets Double.key32)) (Some "hunter2")
      Double.recoveryWorld = (Ok Double.secrets, w1)
    /\ keychain w1 !! (SERVICE, "alice@example.com") = Some (Base64.encode Double.key32)
    /\ exists secrets' evs,
         getSecrets Double.env (Some (sealedRow Double.secrets Double.key32)) None w1
           = (Ok secrets', logged w1 (KeychainGet SERVICE "alice@example.com" :: evs))
         /\ Forall (fun ev => exists data, ev = Decrypt data Double.key32) evs.
Proof.
  assert (Hkey : Double.key32 <> []) by discriminate.
  destruct (recovery_restores_fast_path Double.env Double.env (Some "hunter2") None
              Double.recoveryWorld Double.secrets Double.key32
              Double_RoundTrip Double_Base64Codec Hkey eq_refl eq_refl eq_refl)
    as (w1 & Hrun & Hkeychain & _ & _ & secrets' & evs & Hrun' & _ & Hevs).
  exists w1. split; [exact Hrun|]. split.
  - rewrite Hkeychain. apply lookup_insert_eq.
  - exists secrets', evs. auto.
Defined.

(** C7 as the specification has it fails: the random source gives sixteen
    bytes, and [setLocalKey] returns them and stores them in the keychain. *)
Lemma setLocalKey_accepts_short_key :
  randomBytes Double.shortEnv 32 = Some Double.key16
  /\ length Double.key16 = 16
  /\ exists w',
       setLocalKey Double.shortEnv "alice@example.com" None Double.emptyWorld
         = (Ok Double.key16, w')
       /\ keychain w' !! (SERVICE, "alice@example.com") = Some (toBase64 Double.key16).
Proof.
  split; [reflexivity|]. split; [reflexivity|].
  eexists. split; reflexivity.
Qed.

(** C9 on the reference platform: two first runs and a fast-path call. *)
Lemma device_one_row_per_login_witness :
  length (rowsFor "alice@example.com"
            (device (getSecretsCalls
                       [mkCall Double.env None (Some "hunter2");
                        mkCall Double.env None None;
                        mkCall Double.env (Some (sealedRow Double.secrets Double.key32)) None]
                       Double.emptyWorld))) <= 1.
Proof.
  assert (Hempty : forall login, length (rowsFor login (device Double.emptyWorld)) <= 1)
    by (intros login; cbn; lia).
  apply (device_one_row_per_login _ Double.emptyWorld Hempty).
Defined.

(** C10 on the reference platform. *)
Lemma fast_path_writes_nothing_witness :
  let row := sealedRow Double.secrets Double.key32 in
  let w' := (getSecrets Double.env (Some row) None Double.cachedWorld).2 in
  keychain w' = keychain Double.cachedWorld
  /\ device w' = device Double.cachedWorld
  /\ transactions w' = transactions Double.cachedWorld.
Proof.
  destruct (fast_path_writes_nothing Double.env (sealedRow Double.secrets Double.key32) None
              Double.cachedWorld (Base64.encode Double.key32) eq_refl eq_refl)
    as (Hkeychain & Hdevice & Htransactions & _).
  auto.
Defined.

(** C4 on the reference platform: the second of three secure notes does
    not decrypt. *)
Lemma getNote_aborts_on_undecryptable_note_witness :
  exists evs,
    getNote Double.env (mkGetSecureNote None Double.secrets) Double.corruptedWorld
      = (Throw (TransactionDecryptionFailed "corrupted payload"),
         logged Double.corruptedWorld evs)
    /\ List.filter isConsoleLog evs = [].
Proof.
  assert (Hbatch : In (Double.secureNote "")
                      (secureNoteBatch Double.secrets Double.corruptedWorld))
    by (right; left; reflexivity).
  destruct (getNote_aborts_on_undecryptable_note Double.env
              (mkGetSecureNote None Double.secrets) Double.corruptedWorld
              (Double.secureNote "") "corrupted payload" Hbatch eq_refl)
    as (culprit & reason' & evs & _ & _ & Hrun & _ & Hsilent & Honly).
  exists evs. split; [|exact Hsilent].
  rewrite Hrun. rewrite Honly; [reflexivity|].
  intros other reason'' _. cbn. unfold Double.noteOfPayload.
  destruct (Js.truthy _); congruence.
Defined.

(** C5 on the reference platform: two candidates and no filter; the user
    picks the last. *)
Lemma getNote_selection_witness :
  exists w2,
    getNote Double.env (mkGetSecureNote None Double.secrets) Double.notesWorld
      = (Ok tt,
         logged w2 [AskSecureNoteChoice [Double.wifiNote; Double.bankNote] false;
                    ConsoleLog (Some "content of Bank PIN")]).
Proof.
  pose (params := mkGetSecureNote None Double.secrets).
  pose (w1 := (getBeautifiedNotes params Double.notesWorld).2).
  assert (Hbeautified : getBeautifiedNotes params Double.notesWorld
                        = (Ok (Some [Double.wifiNote; Double.bankNote]), w1))
    by reflexivity.
  assert (Hmatched : matchNotes (titleFilter params) (Some [Double.wifiNote; Double.bankNote]) w1
                     = (Ok (Some [Double.wifiNote; Double.bankNote]), w1))
    by reflexivity.
  destruct (getNote_selection Double.env params Double.notesWorld _ w1 _ w1
              Hbeautified Hmatched) as [Hrun _].
  exists w1. exact Hrun.
Defined.

(** C6 on the reference platform. *)
Lemma getNote_title_filter_witness :
  (forall filter,
     Js.isAscii filter = true ->
     exists keep : VaultNote -> bool,
       matchNotes (Some filter) (Some [Double.wifiNote; Double.bankNote]) Double.emptyWorld
         = (Ok (Some (List.filter keep [Double.wifiNote; Double.bankNote])), Double.emptyWorld)
       /\ forall note, In note [Double.wifiNote; Double.bankNote] ->
                       (keep note = true <-> titleContains filter note))
  /\ matchNotes None (Some [Double.wifiNote; Double.bankNote]) Double.emptyWorld
       = (Ok (Some [Double.wifiNote; Double.bankNote]), Double.emptyWorld).
Proof.
  assert (Hplain : forall note, In note [Double.wifiNote; Double.bankNote] ->
                                note !! "toString" = None)
    by (intros note [<- | [<- | []]]; reflexivity).
  destruct (getNote_title_filter [Double.wifiNote; Double.bankNote] Double.emptyWorld Hplain)
    as [Hfilter Hall].
  split; [|exact Hall].
  intros filter Hascii. apply (Hfilter filter Hascii).
  intros note [<- | [<- | []]]; eexists; split; reflexivity.
Defined.

(** The filter of the specification's example: [wifi] and [WIFI] keep the
    note titled [My Wifi Password] and not the one titled [Bank PIN]; [xyz]
    keeps none, and the retrieval fails. *)
Example title_filter_wifi :
  matchNotes (Some "wifi") (Some [Double.wifiNote; Double.bankNote]) Double.emptyWorld
    = (Ok (Some [Double.wifiNote]), Double.emptyWorld)
  /\ matchNotes (Some "WIFI") (Some [Double.wifiNote; Double.bankNote]) Double.emptyWorld
       = (Ok (Some [Double.wifiNote]), Double.emptyWorld)
  /\ matchNotes (Some "xyz") (Some [Double.wifiNote; Double.bankNote]) Double.emptyWorld
       = (Ok (Some []), Double.emptyWorld)
  /\ (getNote Double.env (mkGetSecureNote (Some "xyz") Double.secrets) Double.notesWorld).1
       = Throw (Error "No note found").
Proof. repeat split; reflexivity. Qed.

(** C8 on the reference platform. *)
Lemma beautify_fields_witness :
  exists note,
    beautify Double.otpItem Double.emptyWorld = (Ok note, Double.emptyWorld)
    /\ note !! "otpSecret" = Some "JBSWY3DP"
    /\ note !! "title" = Some "Bank"
    /\ note !! "xCustom" = Some "kept"
    /\ note !! "OtpSecret" = None.
Proof.
  assert (Hkeys : forall entry,
             In entry (SecureNote.KWDataItem
                         (SecureNote.KWSecureNote (SecureNote.root Double.otpItem))) ->
             SecureNote.key (SecureNote._attributes entry) <> EmptyString
             /\ Js.isAscii (SecureNote.key (SecureNote._attributes entry)) = true)
    by (intros entry [<- | [<- | [<- | []]]]; (split; [discriminate | reflexivity])).
  destruct (beautify_fields Double.otpItem Double.emptyWorld Hkeys)
    as (note & Hrun & _).
  exists note. split; [exact Hrun|].
  assert (Hvalue : beautify Double.otpItem Double.emptyWorld
                   = (Ok (fromEntries [("title", "Bank"); ("otpSecret", "JBSWY3DP");
                                       ("xCustom", "kept")]), Double.emptyWorld))
    by reflexivity.
  rewrite Hvalue in Hrun. injection Hrun as <-. repeat split.
Defined.

(** ** The behaviour of the code on the executable platform *)

Lemma Double_bufferEqb_eq (a b : Buffer) : Double.bufferEqb a b = true -> a = b.
Proof.
  revert b. induction a as [|x a IH]; intros [|y b]; cbn; try discriminate; [reflexivity|].
  intros Heq. apply andb_true_iff in Heq as [Hxy Hab].
  rewrite (IH b Hab). f_equal. now apply Byte.byte_dec_bl.
Qed.

Lemma Double_WrongKey : WrongKey.
Proof.
  intros key other content Hother. cbn.
  destruct (Double.bufferEqb key other) eqn:Heq; [|eauto].
  apply Double_bufferEqb_eq in Heq. congruence.
Qed.

(** X1 on the executable platform. *)
Lemma setLocalKey_then_getLocalKey_witness :
  (getLocalKey "alice@example.com"
     (setLocalKey Double.env "alice@example.com" (Some Double.key32) Double.emptyWorld).2).1
    = Ok (Some Double.key32)
  /\ (getLocalKey "alice@example.com"
        (setLocalKey Double.env "alice@example.com" (Some []) Double.emptyWorld).2).1
     = Ok None.
Proof.
  destruct (setLocalKey_then_getLocalKey Double.env "alice@example.com" Double.key32
              Double.emptyWorld Double_Base64Codec) as (_ & Hread & _).
  destruct (setLocalKey_then_getLocalKey Double.env "alice@example.com" []
              Double.emptyWorld Double_Base64Codec) as (_ & Hempty & _).
  split; assumption.
Defined.

(** X2 on the executable platform: a recovery with a wrong password. *)
Lemma getSecrets_throw_writes_nothing_witness :
  let run := getSecrets Double.env (Some (sealedRow Double.secrets Double.key32))
               (Some "not the password") Double.recoveryWorld in
  run.1 = Throw (DecryptionFailed "wrong key")
  /\ keychain run.2 = keychain Double.recoveryWorld
  /\ device run.2 = device Double.recoveryWorld.
Proof.
  cbv zeta. split; [reflexivity|].
  destruct (getSecrets_throw_writes_nothing Double.env
              (Some (sealedRow Double.secrets Double.key32)) (Some "not the password")
              Double.recoveryWorld (DecryptionFailed "wrong key") eq_refl eq_refl)
    as (Hkeychain & Hdevice & _).
  auto.
Defined.

(** X3 on the executable platform. *)
Lemma first_run_registration_failure_witness :
  getSecrets Scenario.offlineEnv None (Some "hunter2") Double.emptyWorld
    = (Throw (RegistrationFailed "network unreachable"),
       logged Double.emptyWorld
         [PromptLogin; KeychainGet SERVICE "alice@example.com";
          Derive "hunter2" (getDerivationParametersForLocalKey "alice@example.com");
          RegisterDevice "alice@example.com"]).
Proof.
  exact (first_run_registration_failure Scenario.offlineEnv (Some "hunter2")
           Double.emptyWorld "network unreachable" eq_refl).
Defined.

(** X4 on the executable platform. *)
Lemma failed_recovery_then_retry_witness :
  exists w1 w2,
    getSecrets Double.env (Some (sealedRow Double.secrets Double.key32))
      (Some "not the password") Double.recoveryWorld
      = (Throw (DecryptionFailed "wrong key"), w1)
    /\ getSecrets Double.env (Some (sealedRow Double.secrets Double.key32))
         (Some "hunter2") w1 = (Ok Double.secrets, w2).
Proof.
  destruct (failed_recovery_then_retry Double.env Double.env (Some "not the password")
              (Some "hunter2") Double.recoveryWorld Double.secrets Double.key32 "wrong key"
              Double_RoundTrip eq_refl eq_refl eq_refl eq_refl)
    as (w1 & Hfailed & _ & _ & w2 & Hretry).
  exists w1, w2. auto.
Defined.

(** X5 on the executable platform: a password that is not the stored one. *)
Lemma fast_path_trusts_supplied_password_witness :
  (getSecrets Double.env (Some (sealedRow Double.secrets Double.key32))
     (Some "not the password") Double.cachedWorld).1
    = Ok (Secrets.mk "alice@example.com" "not the password" "a1b2c3" "00ff10aa").
Proof.
  rewrite (fast_path_trusts_supplied_password Double.env
             (sealedRow Double.secrets Double.key32) "not the password" Double.cachedWorld
             (Base64.encode Double.key32) (Hex.fromHex "00ff10aa")
             eq_refl eq_refl eq_refl eq_refl).
  reflexivity.
Defined.

(** X6 on the executable platform. *)
Lemma fast_path_returns_sealed_bundle_witness :
  (getSecrets Double.env (Some (sealedRow Double.secrets Double.key32)) None
     Double.cachedWorld).1 = Ok Double.secrets.
Proof.
  destruct (fast_path_returns_sealed_bundle Double.env Double.secrets Double.key32
              Double.cachedWorld (Base64.encode Double.key32)
              Double_RoundTrip eq_refl eq_refl (Base64_decode_encode Double.key32))
    as [Hrun _].
  rewrite Hrun. reflexivity.
Defined.

(** X7 on the executable platform. *)
Lemma stale_keychain_key_is_fatal_witness :
  exists reason evs,
    getSecrets Double.env (Some (sealedRow Double.secrets Double.key32)) None
      Scenario.staleWorld = (Throw (DecryptionFailed reason), logged Scenario.staleWorld evs)
    /\ List.filter isDerive evs = [].
Proof.
  assert (Hstale : fromBase64 (Base64.encode Double.key16) <> Double.key32)
    by (cbn [fromBase64 Double.platform]; rewrite Base64_decode_encode; discriminate).
  destruct (stale_keychain_key_is_fatal Double.env Double.secrets Double.key32 None
              Scenario.staleWorld (Base64.encode Double.key16)
              Double_WrongKey eq_refl eq_refl Hstale)
    as (reason & evs & Hrun & _ & Hderive).
  exists reason, evs. auto.
Defined.

(** X8 on the executable platform. *)
Lemma first_run_keeps_cached_key_witness :
  exists s evs,
    getSecrets Double.env None (Some "hunter2") Double.cachedWorld
      = (Ok s, mkWorld (keychain Double.cachedWorld)
                       (replaceInto (sealedRow s Double.key32) (device Double.cachedWorld))
                       (transactions Double.cachedWorld)
                       (trace Double.cachedWorld ++ evs))
    /\ List.filter isKeyStoreCall evs = [].
Proof.
  destruct (first_run_keeps_cached_key Double.env (Some "hunter2") Double.cachedWorld
              (Base64.encode Double.key32) (Registration.mk "a1b2c3" "00ff10aa")
              eq_refl eq_refl eq_refl)
    as (s & evs & Hrun & Hcalls).
  exists s, evs. split; [|exact Hcalls].
  rewrite Hrun. cbn [fromBase64 Double.platform]. now rewrite Base64_decode_encode.
Defined.

(** X21 on the executable platform. *)
Lemma fast_path_is_repeatable_witness :
  let row := sealedRow Double.secrets Double.key32 in
  (getSecrets Scenario.offlineEnv (Some row) None
     (getSecrets Double.env (Some row) None Double.cachedWorld).2).1
    = Ok Double.secrets.
Proof.
  cbv zeta.
  rewrite (fast_path_is_repeatable Double.env Scenario.offlineEnv
             (sealedRow Double.secrets Double.key32) None Double.cachedWorld
             (Base64.encode Double.key32) eq_refl eq_refl).
  reflexivity.
Defined.

(** X22 on the executable platform, with a registration that issues the
    secret key in upper-case digits: the recovery returns it in lower
    case. *)
Lemma first_run_then_recovery_witness :
  exists secrets w1 row secrets' w2,
    getSecrets Scenario.upperCaseEnv None (Some "hunter2") Double.emptyWorld
      = (Ok secrets, w1)
    /\ Secrets.secretKey secrets = "00FFAB"
    /\ rowsFor "alice@example.com" (device w1) = [row]
    /\ getSecrets Double.env (Some row) (Some "hunter2")
         (mkWorld (delete (SERVICE, "alice@example.com") (keychain w1))
                  (device w1) (transactions w1) (trace w1))
       = (Ok secrets', w2)
    /\ Secrets.secretKey secrets' = "00ffab".
Proof.
  destruct (first_run_then_recovery Scenario.upperCaseEnv Double.env (Some "hunter2")
              (Some "hunter2") Double.emptyWorld (Registration.mk "a1b2c3" "00FFAB")
              Double.key32 Double_RoundTrip eq_refl eq_refl eq_refl eq_refl)
    as (secrets & w1 & row & Hrun & Hissued & Hrows & _ & secrets' & w2 & Hrecovered
        & Hbundle & _).
  exists secrets, w1, row, secrets', w2. repeat split; try assumption.
  rewrite Hbundle. cbn [Secrets.secretKey]. rewrite Hissued. reflexivity.
Defined.

(** X14 on the executable platform. *)
Lemma beautify_empty_key_witness :
  exists message,
    beautify Scenario.brokenItem Double.emptyWorld
      = (Throw (TypeError message), Double.emptyWorld).
Proof.
  apply (beautify_empty_key Scenario.brokenItem Double.emptyWorld
           (SecureNote.mkEntry (SecureNote.mkAttributes "") "lost")).
  - right. left. reflexivity.
  - reflexivity.
Defined.

(** X15 on the executable platform. *)
Lemma title_filter_needs_titles_witness :
  (exists message,
     matchNotes (Some "wifi") (Some [Double.wifiNote; Scenario.untitledNote]) Double.emptyWorld
       = (Throw (TypeError message), Double.emptyWorld))
  /\ matchNotes None (Some [Double.wifiNote; Scenario.untitledNote]) Double.emptyWorld
       = (Ok (Some [Double.wifiNote; Scenario.untitledNote]), Double.emptyWorld).
Proof.
  assert (Hin : In Scenario.untitledNote [Double.wifiNote; Scenario.untitledNote])
    by (right; left; reflexivity).
  destruct (title_filter_needs_titles "wifi" [Double.wifiNote; Scenario.untitledNote]
              Scenario.untitledNote Double.emptyWorld eq_refl Hin eq_refl)
    as [Hthrow Hkept].
  split; [exact Hthrow|]. apply Hkept.
  intros other [<- | [<- | []]]; reflexivity.
Defined.

(** X23 on the executable platform: the attribute [ToString] gives the
    field [toString]; with another note the sort throws, alone the note is
    kept. *)
Lemma sort_needs_plain_notes_witness :
  beautify Scenario.shadowingItem Double.emptyWorld
    = (Ok Scenario.shadowingNote, Double.emptyWorld)
  /\ matchNotes None (Some [Double.wifiNote; Scenario.shadowingNote]) Double.emptyWorld
     = (Throw (TypeError "Cannot convert object to primitive value"), Double.emptyWorld)
  /\ matchNotes (Some "recipe") (Some [Double.wifiNote; Scenario.shadowingNote])
       Double.emptyWorld
     = (Ok (Some [Scenario.shadowingNote]), Double.emptyWorld).
Proof.
  split; [reflexivity|]. split.
  - rewrite (sort_needs_plain_notes None [Double.wifiNote; Scenario.shadowingNote]
               Double.emptyWorld); [reflexivity | discriminate].
  - rewrite (sort_needs_plain_notes (Some "recipe")
               [Double.wifiNote; Scenario.shadowingNote] Double.emptyWorld);
      [reflexivity|].
    intros _. split; [reflexivity|].
    intros note [<- | [<- | []]]; eexists; split; reflexivity.
Defined.

(** X19 on the executable platform. *)
Lemma getNote_empty_vault_witness :
  getNote Double.env (mkGetSecureNote (Some "wifi") Double.secrets) Double.emptyWorld
    = (Throw (Error "No note found"),
       logged Double.emptyWorld
         [WinstonDebug "Retrieving: wifi"; TransactionsSelect "alice@example.com"]).
Proof.
  exact (getNote_empty_vault Double.env (mkGetSecureNote (Some "wifi") Double.secrets)
           Double.emptyWorld eq_refl).
Defined.

(** X20 on the executable platform: the filter [wifi] keeps one of the
    two notes, whose content is printed. *)
Lemma getNote_end_to_end_witness :
  let params := mkGetSecureNote (Some "wifi") Double.secrets in
  getNote Double.env params Double.notesWorld
    = (Ok tt,
       logged (logged Double.notesWorld (retrieval params Double.notesWorld))
         [ConsoleLog (Some "content of My Wifi Password")]).
Proof.
  cbv zeta.
  assert (Hkeys : forall item entry,
             In item [Scenario.wifiItem; Scenario.bankItem] ->
             In entry (SecureNote.KWDataItem (SecureNote.KWSecureNote (SecureNote.root item))) ->
             SecureNote.key (SecureNote._attributes entry) <> EmptyString
             /\ Js.isAscii (SecureNote.key (SecureNote._attributes entry)) = true)
    by (intros item entry [<- | [<- | []]] [<- | [<- | []]];
        (split; [discriminate | reflexivity])).
  assert (Hplain : forall item, In item [Scenario.wifiItem; Scenario.bankItem] ->
                                vaultNoteOf item !! "toString" = None)
    by (intros item [<- | [<- | []]]; reflexivity).
  assert (Htitles : Js.truthy_opt (Some "wifi") = true ->
                    Js.isAscii "wifi" = true
                    /\ forall item, In item [Scenario.wifiItem; Scenario.bankItem] ->
                         exists title, vaultNoteOf item !! "title" = Some title
                                       /\ Js.isAscii title = true)
    by (intros _; split; [reflexivity|];
        intros item [<- | [<- | []]]; eexists; (split; reflexivity)).
  exact (getNote_end_to_end Double.env (mkGetSecureNote (Some "wifi") Double.secrets)
           Double.notesWorld [Scenario.wifiItem; Scenario.bankItem] eq_refl Hkeys Hplain
           Htitles).
Defined.
